(** * validation-fields: form-field validators of [validForm]

    A shallow embedding of [src/validation-fields.ts] (the version that
    declares [isValidCpf], [isDate] and the two date-format transforms).

    - A JavaScript string is the list of its UTF-16 code units.
    - A JavaScript number is either [NaN] or an integer; every number the
      validators compute is an integer far below 2^53, so the double
      arithmetic of the platform is exact on them.
    - Regular expressions are run by a backtracking matcher that follows
      the continuation semantics of the language definition, for the
      fragment the file uses: a disjunction of sequences of assertions,
      quantified character classes, one capturing group and its
      back-reference.
    - The platform's date parser and clock are not part of the repository;
      they are the fields of a [Host] record the date functions take.
      Likewise [Number] and [Number.isInteger], which work on doubles, are
      the fields of a [Numeric] record that [text] takes. *)

From Stdlib Require Import String Ascii Bool NArith ZArith Lia List Permutation.
Import ListNotations.

(** ** Strings *)

Definition char := N.
Bind Scope N_scope with char.
Definition jsstring := list char.

Definition chr (a : ascii) : char := N_of_ascii a.

Fixpoint str (s : string) : jsstring :=
  match s with
  | EmptyString => []
  | String a r => chr a :: str r
  end.

Definition in_range (lo hi c : char) : bool := (N.leb lo c && N.leb c hi)%bool.

(** [\d] and [[0-9]] *)
Definition is_digit (c : char) : bool := in_range 48 57 c.

(** [[^\d]] and [[^0-9]] *)
Definition non_digit (c : char) : bool := negb (is_digit c).

(** [\s]: the white space and line terminator code units. *)
Definition is_space (c : char) : bool :=
  (in_range 9 13 c || N.eqb c 32 || N.eqb c 160 || N.eqb c 5760
   || in_range 8192 8202 c || N.eqb c 8232 || N.eqb c 8233
   || N.eqb c 8239 || N.eqb c 8287 || N.eqb c 12288 || N.eqb c 65279)%bool.

(** [.] without the [s] flag: anything but a line terminator. *)
Definition dot (c : char) : bool :=
  negb (N.eqb c 10 || N.eqb c 13 || N.eqb c 8232 || N.eqb c 8233)%bool.

Definition is_char (a : ascii) (c : char) : bool := N.eqb c (chr a).

Definition is_alpha (c : char) : bool :=
  (in_range 97 122 c || in_range 65 90 c)%bool.

Definition to_upper (c : char) : char :=
  if in_range 97 122 c then (c - 32)%N else c.

Definition to_lower (c : char) : char :=
  if in_range 65 90 c then (c + 32)%N else c.

(** A class under the [i] flag.  Canonicalisation never sends a code unit
    above 127 to one below 128, so for a class whose members are ASCII
    (all the classes of this file are) only the ASCII case pairs count. *)
Definition ignore_case (p : char -> bool) (c : char) : bool :=
  (p (to_upper c) || p (to_lower c))%bool.

Fixpoint dropwhile (p : char -> bool) (s : jsstring) : jsstring :=
  match s with
  | [] => []
  | c :: r => if p c then dropwhile p r else s
  end.

Fixpoint takewhile (p : char -> bool) (s : jsstring) : jsstring :=
  match s with
  | [] => []
  | c :: r => if p c then c :: takewhile p r else []
  end.

(** What is left of [s] without its trailing run of white space. *)
Fixpoint drop_trailing (s : jsstring) : jsstring :=
  match s with
  | [] => []
  | c :: r => if forallb is_space s then [] else c :: drop_trailing r
  end.

(** [s.trim()] *)
Definition trim (s : jsstring) : jsstring :=
  drop_trailing (dropwhile is_space s).

(** [s.charAt(i)]: the empty string out of range. *)
Definition charAt (s : jsstring) (i : nat) : jsstring :=
  match nth_error s i with
  | Some c => [c]
  | None => []
  end.

(** [s.split(sep)] for a separator of one code unit. *)
Fixpoint split (sep : char) (s : jsstring) : list jsstring :=
  match s with
  | [] => [[]]
  | c :: r =>
      if N.eqb c sep then [] :: split sep r
      else match split sep r with
           | [] => [[c]]
           | p :: ps => (c :: p) :: ps
           end
  end.

(** What an array destructuring or an index reads, printed by a template
    literal: a missing element prints as [undefined]. *)
Definition elem (parts : list jsstring) (i : nat) : jsstring :=
  nth i parts (str "undefined").

(** ** Regular expressions *)

Module RegExp.

Inductive term : Type :=
| Bol                                               (* ^ *)
| Eol                                               (* $ *)
| Rep (p : char -> bool) (lo : nat) (hi : option nat) (* class{lo,hi}, greedy *)
| Cap (p : char -> bool)                            (* (class), group 1 *)
| Back (lo : nat) (hi : option nat).                (* \1{lo,hi}, greedy *)

(** A pattern is a disjunction of sequences, tried from left to right. *)
Definition pattern := list (list term).

Definition One (p : char -> bool) : term := Rep p 1 (Some 1).
Definition Plus (p : char -> bool) : term := Rep p 1 None.

Definition may_take (hi : option nat) : bool :=
  match hi with
  | Some O => false
  | _ => true
  end.

(** Greedy repetition of a class: one more code unit first, the
    continuation [k] on what is left when that fails. *)
Fixpoint greedy (p : char -> bool) (lo : nat) (hi : option nat)
         (k : jsstring -> option jsstring) (s : jsstring) : option jsstring :=
  let stop := match lo with O => k s | S _ => None end in
  match s with
  | [] => stop
  | c :: r =>
      if (p c && may_take hi)%bool then
        match greedy p (pred lo) (option_map pred hi) k r with
        | Some e => Some e
        | None => stop
        end
      else stop
  end.

(** [run n ts cap s]: match the sequence [ts] at the position whose
    remaining input is [s], in an input of [n] code units; the result is
    what is left after the match. *)
Fixpoint run (n : nat) (ts : list term) (cap : option char) (s : jsstring)
  : option jsstring :=
  match ts with
  | [] => Some s
  | Bol :: ts' => if Nat.eqb (length s) n then run n ts' cap s else None
  | Eol :: ts' => match s with [] => run n ts' cap s | _ :: _ => None end
  | Rep p lo hi :: ts' => greedy p lo hi (run n ts' cap) s
  | Cap p :: ts' =>
      match s with
      | c :: r => if p c then run n ts' (Some c) r else None
      | [] => None
      end
  | Back lo hi :: ts' =>
      match cap with
      | Some c => greedy (N.eqb c) lo hi (run n ts' cap) s
      | None => run n ts' cap s
      end
  end.

Fixpoint match_at (n : nat) (r : pattern) (s : jsstring) : option jsstring :=
  match r with
  | [] => None
  | ts :: r' =>
      match run n ts None s with
      | Some e => Some e
      | None => match_at n r' s
      end
  end.

Fixpoint test_from (n : nat) (r : pattern) (s : jsstring) : bool :=
  match match_at n r s with
  | Some _ => true
  | None => match s with [] => false | _ :: s' => test_from n r s' end
  end.

(** [r.test(input)] *)
Definition test (r : pattern) (input : jsstring) : bool :=
  test_from (length input) r input.

Fixpoint replace_from (n : nat) (r : pattern) (by_ s : jsstring) : jsstring :=
  match match_at n r s with
  | Some e => by_ ++ e
  | None => match s with [] => [] | c :: s' => c :: replace_from n r by_ s' end
  end.

(** [input.replace(r, by_)] for [r] without the [g] flag: the leftmost
    match only. *)
Definition replace (r : pattern) (by_ input : jsstring) : jsstring :=
  replace_from (length input) r by_ input.

Fixpoint replace_g_from (fuel n : nat) (r : pattern) (by_ s : jsstring)
  : jsstring :=
  match fuel with
  | O => s
  | S fuel' =>
      match match_at n r s with
      | Some e =>
          if Nat.ltb (length e) (length s)
          then by_ ++ replace_g_from fuel' n r by_ e
          else by_ ++ match s with
                      | [] => []
                      | c :: s' => c :: replace_g_from fuel' n r by_ s'
                      end
      | None =>
          match s with
          | [] => []
          | c :: s' => c :: replace_g_from fuel' n r by_ s'
          end
      end
  end.

(** [input.replace(r, by_)] for [r] with the [g] flag: every match, from
    left to right.  Each round consumes a code unit, so the length of
    the input, plus one, bounds their number. *)
Definition replace_g (r : pattern) (by_ input : jsstring) : jsstring :=
  replace_g_from (S (length input)) (length input) r by_ input.

End RegExp.

Import RegExp.

(** ** Numbers *)

Inductive number : Type :=
| NaN
| Fin (z : Z).

Definition num_add (a b : number) : number :=
  match a, b with
  | Fin x, Fin y => Fin (x + y)
  | _, _ => NaN
  end.

Definition num_sub (a b : number) : number :=
  match a, b with
  | Fin x, Fin y => Fin (x - y)
  | _, _ => NaN
  end.

Definition num_mul (a b : number) : number :=
  match a, b with
  | Fin x, Fin y => Fin (x * y)
  | _, _ => NaN
  end.

(** [a % b]: the remainder has the sign of the dividend; [NaN] when the
    divisor is zero. *)
Definition num_rem (a b : number) : number :=
  match a, b with
  | Fin x, Fin y => if Z.eqb y 0 then NaN else Fin (Z.rem x y)
  | _, _ => NaN
  end.

(** [a === b] on numbers: [NaN] equals nothing, itself included. *)
Definition strict_eq (a b : number) : bool :=
  match a, b with
  | Fin x, Fin y => Z.eqb x y
  | _, _ => false
  end.

(** [a !== b] *)
Definition strict_neq (a b : number) : bool := negb (strict_eq a b).

(** [a > b]: false as soon as one side is [NaN]. *)
Definition num_gt (a b : number) : bool :=
  match a, b with
  | Fin x, Fin y => Z.ltb y x
  | _, _ => false
  end.

Definition isNaN (a : number) : bool :=
  match a with
  | NaN => true
  | Fin _ => false
  end.

Definition of_nat (n : nat) : number := Fin (Z.of_nat n).

Declare Scope js_scope.
Delimit Scope js_scope with js.
Infix "+" := num_add : js_scope.
Infix "-" := num_sub : js_scope.
Infix "*" := num_mul : js_scope.
Infix "===" := strict_eq (at level 70, no associativity) : js_scope.
Infix "!==" := strict_neq (at level 70, no associativity) : js_scope.

(** The value of a digit in the given radix, when it is one. *)
Definition digit_value (radix : Z) (c : char) : option Z :=
  let v :=
    if is_digit c then Some (Z.of_N c - 48)%Z
    else if in_range 97 122 c then Some (Z.of_N c - 87)%Z
    else if in_range 65 90 c then Some (Z.of_N c - 55)%Z
    else None in
  match v with
  | Some d => if Z.ltb d radix then Some d else None
  | None => None
  end.

Definition is_radix_digit (radix : Z) (c : char) : bool :=
  match digit_value radix c with
  | Some _ => true
  | None => false
  end.

Definition digits_value (radix : Z) (ds : jsstring) : Z :=
  fold_left
    (fun acc c => match digit_value radix c with
                  | Some d => (acc * radix + d)%Z
                  | None => acc
                  end)
    ds 0%Z.

(** [parseInt(s)] without a radix: leading white space is skipped, a sign
    is read, [0x] or [0X] selects base sixteen, and the longest prefix of
    digits is the value; [NaN] when that prefix is empty.  Every call of
    the file passes the result of [charAt], at most one code unit. *)
Definition parseInt (s : jsstring) : number :=
  let s1 := dropwhile is_space s in
  let '(sign, s2) :=
    match s1 with
    | c :: r => if is_char "-" c then ((-1)%Z, r)
                else if is_char "+" c then (1%Z, r)
                else (1%Z, s1)
    | [] => (1%Z, s1)
    end in
  let '(radix, s3) :=
    match s2 with
    | z :: x :: r =>
        if (is_char "0" z && (is_char "x" x || is_char "X" x))%bool
        then (16%Z, r) else (10%Z, s2)
    | _ => (10%Z, s2)
    end in
  match takewhile (is_radix_digit radix) s3 with
  | [] => NaN
  | ds => Fin (sign * digits_value radix ds)
  end.

(** ** Values *)

(** The values a caller hands to the validators that take [any]. *)
Inductive value : Type :=
| VUndefined
| VNull
| VBoolean (b : bool)
| VNumber (n : number)
| VString (s : jsstring)
| VObject.

(** ** The validators *)

(** [/^[0-9]+$/] *)
Definition re_number : pattern := [[Bol; Plus is_digit; Eol]].

(** [/[^\d]+/g] and [/[^0-9]+/g] *)
Definition re_non_digits : pattern := [[Plus non_digit]].

(** [/^\s+|\s+$/] *)
Definition re_trim : pattern := [[Bol; Plus is_space]; [Plus is_space; Eol]].

(** The class [[-0-9a-zA-Z.+_]] *)
Definition email_class (c : char) : bool :=
  (is_char "-" c || is_digit c || is_alpha c
   || is_char "." c || is_char "+" c || is_char "_" c)%bool.

(** [/^[-0-9a-zA-Z.+_]+@[-0-9a-zA-Z.+_]+\.[a-zA-Z]{2,4}$/i] *)
Definition re_email : pattern :=
  [[Bol; Plus (ignore_case email_class); One (ignore_case (is_char "@"));
    Plus (ignore_case email_class); One (ignore_case (is_char "."));
    Rep (ignore_case is_alpha) 2 (Some 4); Eol]].

(** [/^[1-9]{2}[2-5]{1}[0-9]{3}[0-9]{4}$/] *)
Definition re_landline : pattern :=
  [[Bol; Rep (in_range 49 57) 2 (Some 2); Rep (in_range 50 53) 1 (Some 1);
    Rep is_digit 3 (Some 3); Rep is_digit 4 (Some 4); Eol]].

(** [/^[1-9]{2}[6-9]{1}[0-9]{8}$/] *)
Definition re_cellphone : pattern :=
  [[Bol; Rep (in_range 49 57) 2 (Some 2); Rep (in_range 54 57) 1 (Some 1);
    Rep is_digit 8 (Some 8); Eol]].

(** [/^(.)\1+$/] *)
Definition areAllDigitsSame : pattern := [[Bol; Cap dot; Back 1 None; Eol]].

(** [input === null] *)
Definition isNull (input : value) : bool :=
  match input with
  | VNull => true
  | _ => false
  end.

(** [typeof input === 'undefined'] *)
Definition isUndefined (input : value) : bool :=
  match input with
  | VUndefined => true
  | _ => false
  end.

(** [valor === '']: a string, and the empty one. *)
Definition is_empty_string (valor : value) : bool :=
  match valor with
  | VString [] => true
  | _ => false
  end.

(** [inputs.some(...)] *)
Definition notInitializeds (inputs : list value) : bool :=
  existsb (fun valor => (is_empty_string valor || isNull valor
                         || isUndefined valor)%bool) inputs.

Definition email (input : jsstring) : bool :=
  let email := replace re_trim [] input in
  test re_email email.

(** [\w] *)
Definition word (c : char) : bool :=
  (is_alpha c || is_digit c || is_char "_" c)%bool.

(** The Latin-1 letters that have their other case in Latin-1: all of
    [à-þ] but the division sign, all of [À-Þ] but the multiplication
    sign. *)
Definition latin1_lower (c : char) : bool :=
  (in_range 224 254 c && negb (N.eqb c 247))%bool.

Definition latin1_upper (c : char) : bool :=
  (in_range 192 222 c && negb (N.eqb c 215))%bool.

Definition to_upper1 (c : char) : char :=
  if (in_range 97 122 c || latin1_lower c)%bool then (c - 32)%N else c.

Definition to_lower1 (c : char) : char :=
  if (in_range 65 90 c || latin1_upper c)%bool then (c + 32)%N else c.

(** A class under the [i] flag, for a class whose members are ASCII or
    Latin-1 letters of the two ranges above: no code unit outside them has
    its upper-case form among theirs. *)
Definition ignore_case1 (p : char -> bool) (c : char) : bool :=
  (p (to_upper1 c) || p (to_lower1 c))%bool.

(** The class [[\wà-ú]] *)
Definition text_class (c : char) : bool :=
  (word c || in_range 224 250 c)%bool.

(** [/^[\wà-ú]{2,}\s?.+$/i]; the [i] flag changes neither [\s] nor
    [.]. *)
Definition re_text : pattern :=
  [[Bol; Rep (ignore_case1 text_class) 2 None; Rep is_space 0 (Some 1);
    Plus dot; Eol]].

(** [/\s{1,}/g] *)
Definition re_spaces : pattern := [[Rep is_space 1 None]].

(** What [text] reads from the platform: [toNumber s] is [Number(s)], a
    double, and [isInteger] is [Number.isInteger]. *)
Record Numeric : Type := {
  double : Type;
  toNumber : jsstring -> double;
  isInteger : double -> bool
}.

Definition text (nh : Numeric) (input : jsstring) : bool :=
  let num := toNumber nh input in
  let isString := negb (isInteger nh num) in
  let text := replace_g re_spaces [] (trim input) in
  (isString && test re_text text)%bool.

(** [input] is the string [RegExp.prototype.test] coerces its argument
    to. *)
Definition isNumber (input : jsstring) : bool :=
  test re_number input.

(** The sum a [for (let i = 0; i < n; i++) add += parseInt(cpf.charAt(i)) *
    (w - i)] loop leaves in [add], started at 0. *)
Definition weighted_sum (cpf : jsstring) (n w : nat) : number :=
  fold_left
    (fun add i => (add + parseInt (charAt cpf i) * (of_nat w - of_nat i))%js)
    (seq 0 n) (Fin 0).

Definition check_value (add : number) : number :=
  let rev := (Fin 11 - num_rem add (Fin 11))%js in
  if ((rev === Fin 10) || (rev === Fin 11))%js%bool then Fin 0 else rev.

Definition isValidCpf (input : jsstring) : bool :=
  let cpf := replace_g re_non_digits [] input in
  (* Validates the first digit *)
  let add := weighted_sum cpf 9 10 in
  let rev := check_value add in
  if (rev !== parseInt (charAt cpf 9))%js then false
  else
    (* Validates the second digit *)
    let add := weighted_sum cpf 10 11 in
    let rev := check_value add in
    if (rev !== parseInt (charAt cpf 10))%js then false
    else true.

Definition isLandline (input : jsstring) : bool :=
  let input := replace_g re_non_digits [] input in
  if negb (isNumber input) then false
  else if test areAllDigitsSame input then false
  else test re_landline input.

Definition isCellPhone (input : jsstring) : bool :=
  let input := replace_g re_non_digits [] input in
  if negb (isNumber input) then false
  else if test areAllDigitsSame input then false
  else test re_cellphone input.

(** ** Dates *)

(** What the date functions read from the platform: [parse s] is the time
    value of [new Date(s)] ([NaN] for an invalid date), [now] the time
    value of [new Date()] and [localeTime] its [toLocaleTimeString()]. *)
Record Host : Type := {
  parse : jsstring -> number;
  now : Z;
  localeTime : jsstring
}.

(** The [boolean | string] of the two transforms. *)
Inductive bool_or_string : Type :=
| Bool (b : bool)
| Str (s : jsstring).

Section Dates.

Variable h : Host.

Definition isDate (input : jsstring) : bool :=
  negb (isNaN (parse h input)).

(** [format] defaults to ['db'] at the call; the [switch] has the case
    ['pt'] and a default. *)
Definition date (input format : jsstring) : bool :=
  if list_eq_dec N.eq_dec format (str "pt") then
    let dateBr := split (chr "/") input in
    if negb (Nat.eqb (length dateBr) 3) then false
    else
      let date := elem dateBr 2 ++ str "-" ++ elem dateBr 1
                  ++ str "-" ++ elem dateBr 0 in
      let dateInfo := parse h (date ++ str " " ++ localeTime h) in
      if num_gt dateInfo (Fin (now h)) then false else true
  else
    let dateInfo := parse h (input ++ str " " ++ localeTime h) in
    if num_gt dateInfo (Fin (now h)) then false else true.

Definition formatPtBrDateToEn (input : jsstring) : bool_or_string :=
  if negb (isDate input) then Bool false
  else
    let parts := split (chr "/") input in
    let day := elem parts 0 in
    let month := elem parts 1 in
    let year := elem parts 2 in
    Str (year ++ str "-" ++ month ++ str "-" ++ day).

Definition formatEnDateToPtBr (input : jsstring) : bool_or_string :=
  if negb (isDate input) then Bool false
  else
    let parts := split (chr "-") input in
    let year := elem parts 0 in
    let month := elem parts 1 in
    let day := elem parts 2 in
    Str (day ++ str "/" ++ month ++ str "/" ++ year).

End Dates.

(** A host to run the date functions on examples.  It reads
    [YYYY-MM-DD] and, as the usual engines do for a date with slashes,
    [MM/DD/YYYY]; whatever follows the date is ignored, and the time value
    is midnight UTC of that day. *)
Module SampleHost.

Local Open Scope Z_scope.

Definition days_from_civil (y m d : Z) : Z :=
  let y' := if Z.leb m 2 then y - 1 else y in
  let era := y' / 400 in
  let yoe := y' - era * 400 in
  let mp := if Z.leb m 2 then m + 9 else m - 3 in
  let doy := (153 * mp + 2) / 5 + d - 1 in
  let doe := yoe * 365 + yoe / 4 - yoe / 100 + doy in
  era * 146097 + doe - 719468.

Definition time_value (y m d : Z) : number :=
  if (Z.leb 1 m && Z.leb m 12 && Z.leb 1 d && Z.leb d 31)%bool
  then Fin (days_from_civil y m d * 86400000)
  else NaN.

Definition num (ds : jsstring) : Z := digits_value 10 ds.

Definition sample_parse (s : jsstring) : number :=
  match s with
  | y1 :: y2 :: y3 :: y4 :: s1 :: m1 :: m2 :: s2 :: d1 :: d2 :: _ =>
      if (forallb is_digit [y1; y2; y3; y4; m1; m2; d1; d2]
          && is_char "-" s1 && is_char "-" s2)%bool
      then time_value (num [y1; y2; y3; y4]) (num [m1; m2]) (num [d1; d2])
      else if (forallb is_digit [y1; y2; y4; s1; m2; s2; d1; d2]
               && is_char "/" y3 && is_char "/" m1)%bool
      then time_value (num [m2; s2; d1; d2]) (num [y1; y2]) (num [y4; s1])
      else NaN
  | _ => NaN
  end.

(** The clock reads 2024-01-01, 12:00:00 UTC. *)
Definition host : Host :=
  {| parse := sample_parse;
     now := 1704110400000;
     localeTime := str "12:00:00 PM" |}.

End SampleHost.

(** * What the validators are specified to compute *)

(** The continuation of a sequence that ends with [$]. *)
Definition at_end (s : jsstring) : option jsstring :=
  match s with
  | [] => Some []
  | _ :: _ => None
  end.


(** Ten digits: an area code of two digits 1-9, a digit 2-5, three digits
    and four digits. *)
Definition landline_digits (d : jsstring) : bool :=
  match d with
  | [a1; a2; t; p1; p2; p3; l1; l2; l3; l4] =>
      (in_range 49 57 a1 && in_range 49 57 a2 && in_range 50 53 t
       && forallb is_digit [p1; p2; p3] && forallb is_digit [l1; l2; l3; l4])%bool
  | _ => false
  end.

(** Eleven digits: an area code of two digits 1-9, a digit 6-9 and eight
    digits. *)
Definition cellphone_digits (d : jsstring) : bool :=
  match d with
  | [a1; a2; t; n1; n2; n3; n4; n5; n6; n7; n8] =>
      (in_range 49 57 a1 && in_range 49 57 a2 && in_range 54 57 t
       && forallb is_digit [n1; n2; n3; n4; n5; n6; n7; n8])%bool
  | _ => false
  end.

(** All the code units of [d] are the same one; so are those of a string
    of one or of none. *)
Definition all_identical (d : jsstring) : bool :=
  match d with
  | [] => true
  | c :: r => forallb (N.eqb c) r
  end.

(** The CPF check digits, as the algorithm is described. *)

Module CpfSpec.

Local Open Scope Z_scope.

Definition digit_of (c : char) : Z := Z.of_N c - 48.

(** The digits of the input, everything else removed. *)
Definition digits (input : jsstring) : list Z :=
  map digit_of (filter is_digit input).

Definition digit (ds : list Z) (i : nat) : Z := nth i ds 0.

(** The sum of [digit[i] * (w - i)] for [i] in [[0, n)]. *)
Fixpoint weighted (ds : list Z) (n w : nat) : Z :=
  match n with
  | O => 0
  | S n' => weighted ds n' w + digit ds n' * (Z.of_nat w - Z.of_nat n')
  end.

(** [11 - (sum mod 11)], with 10 and 11 read as 0. *)
Definition check (sum : Z) : Z :=
  let remainder := 11 - sum mod 11 in
  if (remainder =? 10) || (remainder =? 11) then 0 else remainder.

Definition first_check (ds : list Z) : Z := check (weighted ds 9 10).
Definition second_check (ds : list Z) : Z := check (weighted ds 10 11).

End CpfSpec.

Import CpfSpec.

(** The code units of [a] are all other than the separator [sep]. *)
Definition free (sep : char) (a : jsstring) : bool :=
  forallb (fun c => negb (N.eqb c sep)) a.


(** The parts put back together around the separator. *)
Fixpoint join (sep : char) (parts : list jsstring) : jsstring :=
  match parts with
  | [] => []
  | [a] => a
  | a :: rest => a ++ sep :: join sep rest
  end.

(** [DD/MM/YYYY]: two digits, a slash, two digits, a slash, four
    digits. *)
Definition is_ddmmyyyy (s : jsstring) : bool :=
  match s with
  | [d1; d2; s1; m1; m2; s2; y1; y2; y3; y4] =>
      (forallb is_digit [d1; d2; m1; m2; y1; y2; y3; y4]
       && is_char "/" s1 && is_char "/" s2)%bool
  | _ => false
  end.

(** The code unit of a digit. *)
Definition chr_of_digit (z : Z) : char := Z.to_N (z + 48).

(** Nine digits followed by the two check digits computed from them. *)
Definition cpf_complete (base : jsstring) : jsstring :=
  let c1 := chr_of_digit (first_check (map digit_of base)) in
  let c2 := chr_of_digit (second_check (map digit_of (base ++ [c1]))) in
  base ++ [c1; c2].

(** [n] repetitions respect the upper bound [hi]. *)
Definition within (hi : option nat) (n : nat) : Prop :=
  match hi with
  | None => True
  | Some m => n <= m
  end.

(** A sequence of quantified classes and [$] matches the whole of [s]
    when [s] can be cut into runs of the classes, each of a length its
    quantifier allows. *)
Fixpoint seq_matches (ts : list term) (s : jsstring) : Prop :=
  match ts with
  | [] => True
  | Eol :: ts' => s = [] /\ seq_matches ts' s
  | Rep p lo hi :: ts' =>
      exists n, lo <= n /\ within hi n /\ n <= length s
                /\ forallb p (firstn n s) = true
                /\ seq_matches ts' (skipn n s)
  | _ => False
  end.

(** The terms [seq_matches] covers. *)
Definition plain (t : term) : bool :=
  match t with
  | Eol | Rep _ _ _ => true
  | _ => false
  end.

(** What [replace] with [/^\s+|\s+$/] leaves: the input without its
    leading run of white space when it has one, without its trailing run
    otherwise. *)
Definition trim_once (s : jsstring) : jsstring :=
  match s with
  | [] => []
  | c :: _ => if is_space c then dropwhile is_space s else drop_trailing s
  end.

(** The last code unit of [s] exists and satisfies [p]. *)
Fixpoint ends_with (p : char -> bool) (s : jsstring) : bool :=
  match s with
  | [] => false
  | [c] => p c
  | _ :: r => ends_with p r
  end.

(** No white space at either end. *)
Definition clean (s : jsstring) : bool :=
  match s with
  | [] => true
  | c :: _ =>
      (negb (is_space c) && ends_with (fun c => negb (is_space c)) s)%bool
  end.

(** [local@domain.tld] *)
Definition email_shape (e : jsstring) : Prop :=
  exists local domain tld,
    e = local ++ chr "@" :: domain ++ chr "." :: tld
    /\ local <> [] /\ forallb email_class local = true
    /\ domain <> [] /\ forallb email_class domain = true
    /\ 2 <= length tld <= 4 /\ forallb is_alpha tld = true.

(** [YYYY-MM-DD]: four digits, a dash, two digits, a dash, two
    digits. *)
Definition is_yyyymmdd (s : jsstring) : bool :=
  match s with
  | [y1; y2; y3; y4; s1; m1; m2; s2; d1; d2] =>
      (forallb is_digit [y1; y2; y3; y4; m1; m2; d1; d2]
       && is_char "-" s1 && is_char "-" s2)%bool
  | _ => false
  end.

(** The three values [notInitializeds] looks for. *)
Definition uninitialized (v : value) : Prop :=
  v = VString [] \/ v = VNull \/ v = VUndefined.

(** The letters [text] takes in its first two places. *)
Definition text_letter (c : char) : bool :=
  (word c || in_range 192 214 c || in_range 216 218 c
   || in_range 224 250 c)%bool.

Definition non_space (c : char) : bool := negb (is_space c).

(** * Properties *)

(** ** The matcher *)

Section MatcherFacts.

Variable p : char -> bool.

Lemma run_Eol (n : nat) (cap : option char) (s : jsstring) :
  run n [Eol] cap s = at_end s.
Proof. destruct s; reflexivity. Qed.

Lemma greedy_ext (k k' : jsstring -> option jsstring) :
  (forall s, k s = k' s) ->
  forall s lo hi, greedy p lo hi k s = greedy p lo hi k' s.
Proof.
  intros E s. induction s as [|c r IH]; intros lo hi; simpl.
  - destruct lo; auto.
  - rewrite IH, E. reflexivity.
Qed.

(** An unbounded repetition that must reach the end of the input. *)
Lemma greedy_to_end (s : jsstring) :
  forall lo,
    greedy p lo None at_end s =
    if (Nat.leb lo (length s) && forallb p s)%bool then Some [] else None.
Proof.
  induction s as [|c r IH]; intros lo; simpl.
  - destruct lo; reflexivity.
  - rewrite IH, andb_true_r.
    destruct (p c); simpl.
    + destruct lo as [|lo]; simpl.
      * destruct (forallb p r); reflexivity.
      * destruct (Nat.leb lo (length r) && forallb p r)%bool; reflexivity.
    + rewrite andb_false_r. destruct lo; reflexivity.
Qed.

(** An unbounded repetition followed by nothing takes all it can. *)
Lemma greedy_all (s : jsstring) :
  greedy p 0 None (fun e => Some e) s = Some (dropwhile p s).
Proof.
  induction s as [|c r IH]; simpl; [reflexivity|].
  rewrite IH, andb_true_r. destruct (p c); reflexivity.
Qed.

Lemma greedy_exact_S (n : nat) k (c : char) (r : jsstring) :
  greedy p (S n) (Some (S n)) k (c :: r) =
  if p c then greedy p n (Some n) k r else None.
Proof.
  simpl. rewrite andb_true_r.
  destruct (p c); [|reflexivity].
  destruct (greedy p n (Some n) k r); reflexivity.
Qed.

Lemma greedy_exact_nil (n : nat) k :
  greedy p (S n) (Some (S n)) k [] = None.
Proof. reflexivity. Qed.

Lemma greedy_exact_O k (s : jsstring) :
  greedy p 0 (Some 0) k s = k s.
Proof.
  destruct s as [|c r]; simpl; [reflexivity|].
  rewrite andb_false_r. reflexivity.
Qed.

End MatcherFacts.

(** A pattern that starts with [^] matches at the first position or not
    at all. *)
Lemma match_at_off (ts : list term) (n : nat) (s : jsstring) :
  length s <> n -> match_at n [Bol :: ts] s = None.
Proof.
  intros L. cbn [match_at run].
  destruct (Nat.eqb_spec (length s) n); [contradiction|reflexivity].
Qed.

Lemma test_from_anchored (ts : list term) (n : nat) (s : jsstring) :
  length s < n -> test_from n [Bol :: ts] s = false.
Proof.
  induction s as [|c r IH]; intros L; cbn [test_from];
    rewrite match_at_off by lia; [reflexivity|].
  apply IH. simpl in L. lia.
Qed.

Lemma test_anchored (ts : list term) (s : jsstring) :
  test [Bol :: ts] s =
  match run (length s) ts None s with Some _ => true | None => false end.
Proof.
  unfold test. destruct s as [|c r]; cbn [test_from match_at run];
    rewrite Nat.eqb_refl.
  - destruct (run _ ts None []); reflexivity.
  - destruct (run _ ts None (c :: r)); [reflexivity|].
    apply test_from_anchored. simpl. lia.
Qed.

Lemma dropwhile_length (p : char -> bool) (s : jsstring) :
  length (dropwhile p s) <= length s.
Proof.
  induction s as [|c r IH]; simpl; [lia|].
  destruct (p c); simpl; lia.
Qed.

Lemma filter_dropwhile_non_digit (s : jsstring) :
  filter is_digit (dropwhile non_digit s) = filter is_digit s.
Proof.
  induction s as [|c r IH]; simpl; [reflexivity|].
  unfold non_digit at 1. destruct (is_digit c) eqn:E; simpl.
  - rewrite E. reflexivity.
  - exact IH.
Qed.

Lemma strip_from (fuel n : nat) :
  forall s, length s < fuel ->
            replace_g_from fuel n re_non_digits [] s = filter is_digit s.
Proof.
  induction fuel as [|fuel IH]; intros s L; [lia|].
  destruct s as [|c r]; [reflexivity|].
  cbn [replace_g_from re_non_digits match_at run Plus].
  cbn [greedy may_take pred option_map].
  rewrite greedy_all.
  simpl in L.
  unfold non_digit at 1. cbn [filter].
  destruct (is_digit c) eqn:E; cbn [negb andb].
  - f_equal. apply IH. lia.
  - pose proof (dropwhile_length non_digit r) as D.
    destruct (Nat.ltb_spec (length (dropwhile non_digit r)) (length (c :: r)))
      as [_|G]; [|simpl in G; lia].
    cbn [app]. rewrite IH by lia. apply filter_dropwhile_non_digit.
Qed.

(** Removing every run of non-digits keeps the digits, in order. *)
Lemma strip_digits (input : jsstring) :
  replace_g re_non_digits [] input = filter is_digit input.
Proof. apply strip_from. lia. Qed.

Lemma filter_all_digits (s : jsstring) :
  forallb is_digit (filter is_digit s) = true.
Proof.
  induction s as [|c r IH]; simpl; [reflexivity|].
  destruct (is_digit c) eqn:E; simpl; [rewrite E|]; exact IH.
Qed.

Lemma isNumber_eq (s : jsstring) :
  isNumber s = (Nat.leb 1 (length s) && forallb is_digit s)%bool.
Proof.
  unfold isNumber, re_number. rewrite test_anchored.
  cbn [run Plus].
  rewrite (greedy_ext is_digit (run (length s) [Eol] None) at_end)
    by (intro; apply run_Eol).
  rewrite greedy_to_end.
  destruct (Nat.leb 1 (length s) && forallb is_digit s)%bool; reflexivity.
Qed.

Lemma areAllDigitsSame_eq (s : jsstring) :
  test areAllDigitsSame s =
  match s with
  | [] => false
  | c :: r => (dot c && Nat.leb 1 (length r) && forallb (N.eqb c) r)%bool
  end.
Proof.
  unfold areAllDigitsSame. rewrite test_anchored.
  destruct s as [|c r]; [reflexivity|].
  cbn [run]. destruct (dot c); [|reflexivity].
  rewrite (greedy_ext (N.eqb c) (run (length (c :: r)) [Eol] (Some c)) at_end)
    by (intro; apply run_Eol).
  rewrite greedy_to_end. cbn [andb].
  destruct (Nat.leb _ _ && _)%bool; reflexivity.
Qed.

(** ** Telephone numbers *)

Ltac exact_reps :=
  repeat first [ rewrite greedy_exact_S
               | rewrite greedy_exact_nil
               | rewrite greedy_exact_O ].

Ltac split_classes :=
  cbn [landline_digits cellphone_digits forallb]; try reflexivity;
  repeat match goal with
         | |- context [in_range ?a ?b ?c] =>
             destruct (in_range a b c); cbn [andb forallb]; try reflexivity
         | |- context [is_digit ?c] =>
             destruct (is_digit c); cbn [andb forallb]; try reflexivity
         end.

Lemma re_landline_eq (d : jsstring) :
  test re_landline d = landline_digits d.
Proof.
  unfold re_landline. rewrite test_anchored. cbn [run].
  do 11 (destruct d as [|? d]; [exact_reps; split_classes|]).
  exact_reps; split_classes.
Qed.

Lemma re_cellphone_eq (d : jsstring) :
  test re_cellphone d = cellphone_digits d.
Proof.
  unfold re_cellphone. rewrite test_anchored. cbn [run].
  do 12 (destruct d as [|? d]; [exact_reps; split_classes|]).
  exact_reps; split_classes.
Qed.

Lemma is_digit_cases (c : char) :
  is_digit c = true ->
  (c = 48 \/ c = 49 \/ c = 50 \/ c = 51 \/ c = 52
   \/ c = 53 \/ c = 54 \/ c = 55 \/ c = 56 \/ c = 57)%N.
Proof.
  unfold is_digit, in_range. rewrite andb_true_iff, !N.leb_le. lia.
Qed.

Lemma is_digit_dot (c : char) : is_digit c = true -> dot c = true.
Proof.
  intros D. apply is_digit_cases in D.
  repeat (destruct D as [D|D]; [subst c; reflexivity|]).
  subst c; reflexivity.
Qed.

(** What the two guards and the pattern of a telephone validator come
    to, for any pattern [shape] that needs two digits or more. *)
Lemma phone_guards (d : jsstring) (shape : bool) :
  (shape = true -> 2 <= length d) ->
  (if negb (isNumber d) then false
   else if test areAllDigitsSame d then false else shape)
  = (isNumber d && negb (all_identical d) && shape)%bool.
Proof.
  intros L. rewrite isNumber_eq, areAllDigitsSame_eq.
  destruct d as [|c r]; [reflexivity|].
  cbn [length Nat.leb forallb all_identical andb].
  destruct (is_digit c) eqn:D; [|reflexivity].
  rewrite (is_digit_dot c D). cbn [andb].
  destruct (forallb is_digit r); [|reflexivity]. cbn [negb].
  destruct r as [|c' r']; cbn [length Nat.leb andb].
  - cbn [forallb negb andb]. destruct shape; [|reflexivity].
    specialize (L eq_refl). simpl in L. lia.
  - destruct (forallb (N.eqb c) (c' :: r')); reflexivity.
Qed.

Lemma landline_digits_length (d : jsstring) :
  landline_digits d = true -> length d = 10.
Proof.
  do 11 (destruct d as [|? d]; [discriminate || reflexivity|]).
  discriminate.
Qed.

Lemma cellphone_digits_length (d : jsstring) :
  cellphone_digits d = true -> length d = 11.
Proof.
  do 12 (destruct d as [|? d]; [discriminate || reflexivity|]).
  discriminate.
Qed.

Lemma isLandline_eq (input : jsstring) :
  isLandline input =
  let d := filter is_digit input in
  (isNumber d && negb (all_identical d) && landline_digits d)%bool.
Proof.
  unfold isLandline. rewrite strip_digits, re_landline_eq.
  apply phone_guards. intros S. rewrite (landline_digits_length _ S). lia.
Qed.

Lemma isCellPhone_eq (input : jsstring) :
  isCellPhone input =
  let d := filter is_digit input in
  (isNumber d && negb (all_identical d) && cellphone_digits d)%bool.
Proof.
  unfold isCellPhone. rewrite strip_digits, re_cellphone_eq.
  apply phone_guards. intros S. rewrite (cellphone_digits_length _ S). lia.
Qed.

(** ** The CPF check digits *)

Lemma parseInt_digit (c : char) :
  is_digit c = true -> parseInt [c] = Fin (digit_of c).
Proof.
  intros D. apply is_digit_cases in D.
  repeat (destruct D as [D|D]; [subst c; reflexivity|]).
  subst c; reflexivity.
Qed.

Lemma digit_of_range (c : char) :
  is_digit c = true -> (0 <= digit_of c <= 9)%Z.
Proof.
  intros D. apply is_digit_cases in D. unfold digit_of. lia.
Qed.

(** Past the end [charAt] gives the empty string, which parses to
    [NaN]. *)
Lemma parseInt_charAt_out (cpf : jsstring) (i : nat) :
  length cpf <= i -> parseInt (charAt cpf i) = NaN.
Proof.
  intros L. unfold charAt.
  rewrite (proj2 (nth_error_None cpf i) L). reflexivity.
Qed.

Lemma parseInt_charAt_in (cpf : jsstring) :
  forallb is_digit cpf = true ->
  forall i, i < length cpf ->
            parseInt (charAt cpf i) = Fin (digit (map digit_of cpf) i).
Proof.
  unfold charAt, digit.
  induction cpf as [|c r IH]; intros A i L; simpl in L; [lia|].
  simpl in A. apply andb_true_iff in A. destruct A as [D A].
  destruct i as [|i]; cbn [nth_error map nth].
  - apply parseInt_digit, D.
  - apply IH; [exact A | lia].
Qed.

Lemma digit_range (cpf : jsstring) :
  forallb is_digit cpf = true ->
  forall i, (0 <= digit (map digit_of cpf) i <= 9)%Z.
Proof.
  unfold digit.
  induction cpf as [|c r IH]; intros A i.
  - destruct i; simpl; lia.
  - simpl in A. apply andb_true_iff in A. destruct A as [D A].
    destruct i as [|i]; cbn [map nth].
    + apply digit_of_range, D.
    + apply IH, A.
Qed.

Lemma weighted_sum_S (cpf : jsstring) (n w : nat) :
  weighted_sum cpf (S n) w =
  (weighted_sum cpf n w
   + parseInt (charAt cpf n) * (of_nat w - of_nat n))%js.
Proof.
  unfold weighted_sum. rewrite seq_S, fold_left_app. reflexivity.
Qed.

Lemma weighted_sum_digits (cpf : jsstring) (w : nat) :
  forallb is_digit cpf = true ->
  forall n, n <= length cpf ->
            weighted_sum cpf n w = Fin (weighted (map digit_of cpf) n w).
Proof.
  intros A n. induction n as [|n IH]; intros L; [reflexivity|].
  rewrite weighted_sum_S, IH by lia.
  rewrite parseInt_charAt_in by (assumption || lia).
  reflexivity.
Qed.

Lemma weighted_nonneg (cpf : jsstring) (w : nat) :
  forallb is_digit cpf = true ->
  forall n, n <= w -> (0 <= weighted (map digit_of cpf) n w)%Z.
Proof.
  intros A n. induction n as [|n IH]; intros L; cbn [weighted]; [lia|].
  pose proof (digit_range cpf A n). nia.
Qed.

Lemma check_value_Fin (x : Z) :
  (0 <= x)%Z -> check_value (Fin x) = Fin (check x).
Proof.
  intros P. unfold check_value, check.
  cbn [num_rem num_sub strict_eq Z.eqb].
  rewrite Z.rem_mod_nonneg by lia.
  destruct ((11 - x mod 11 =? 10) || (11 - x mod 11 =? 11))%Z; reflexivity.
Qed.

Lemma strict_neq_NaN (a : number) : strict_neq a NaN = true.
Proof. destruct a; reflexivity. Qed.

(** On eleven digits or more the validator is the conjunction of the two
    comparisons. *)
Lemma isValidCpf_eq (input : jsstring) :
  11 <= length (filter is_digit input) ->
  isValidCpf input =
  ((first_check (digits input) =? digit (digits input) 9)%Z
   && (second_check (digits input) =? digit (digits input) 10)%Z)%bool.
Proof.
  intros L. unfold isValidCpf, first_check, second_check, digits.
  rewrite strip_digits.
  pose proof (filter_all_digits input) as A.
  set (cpf := filter is_digit input) in *.
  rewrite !weighted_sum_digits by (assumption || lia).
  rewrite !check_value_Fin by (apply weighted_nonneg; [assumption | lia]).
  rewrite !parseInt_charAt_in by (assumption || lia).
  unfold strict_neq. cbn [strict_eq].
  destruct (_ =? _)%Z; [|reflexivity].
  destruct (_ =? _)%Z; reflexivity.
Qed.

(** ** Splitting on a separator *)

Section Split.

Variable sep : char.

Lemma split_free (a : jsstring) : free sep a = true -> split sep a = [a].
Proof.
  induction a as [|c r IH]; intros F; [reflexivity|].
  simpl in F. apply andb_true_iff in F. destruct F as [C F].
  simpl. apply negb_true_iff in C. rewrite C, (IH F). reflexivity.
Qed.

Lemma split_app (a r : jsstring) :
  free sep a = true -> split sep (a ++ sep :: r) = a :: split sep r.
Proof.
  induction a as [|c a IH]; intros F.
  - simpl. rewrite N.eqb_refl. reflexivity.
  - simpl in F. apply andb_true_iff in F. destruct F as [C F].
    simpl. apply negb_true_iff in C. rewrite C, (IH F). reflexivity.
Qed.

Lemma split_three (a b c : jsstring) :
  free sep a = true -> free sep b = true -> free sep c = true ->
  split sep (a ++ sep :: b ++ sep :: c) = [a; b; c].
Proof.
  intros A B C. rewrite !split_app, split_free by assumption. reflexivity.
Qed.

Lemma split_parts_free (s : jsstring) :
  forallb (free sep) (split sep s) = true.
Proof.
  induction s as [|c r IH]; [reflexivity|].
  cbn [split]. destruct (N.eqb c sep) eqn:E; [exact IH|].
  destruct (split sep r) as [|a rest]; cbn [forallb free] in *.
  - rewrite E. reflexivity.
  - rewrite E. exact IH.
Qed.

(** Splitting loses nothing: the parts, joined, are the input. *)
Lemma join_split (s : jsstring) : join sep (split sep s) = s.
Proof.
  induction s as [|c r IH]; [reflexivity|].
  cbn [split]. destruct (N.eqb_spec c sep) as [E|E].
  - subst c. destruct (split sep r) as [|a rest] eqn:S.
    + destruct r; simpl in S; [discriminate S|].
      destruct (N.eqb c sep); [discriminate S|].
      destruct (split sep r); discriminate S.
    + cbn [join] in *. rewrite IH. reflexivity.
  - destruct (split sep r) as [|a rest]; cbn [join] in *.
    + rewrite <- IH. reflexivity.
    + destruct rest; rewrite <- IH; reflexivity.
Qed.

Lemma split_length (s : jsstring) :
  length (split sep s) = S (count_occ N.eq_dec s sep).
Proof.
  induction s as [|c r IH]; [reflexivity|].
  cbn [split count_occ].
  destruct (N.eqb_spec c sep) as [E|E].
  - destruct (N.eq_dec c sep); [|contradiction]. simpl. now rewrite IH.
  - destruct (N.eq_dec c sep); [contradiction|].
    rewrite <- IH. destruct (split sep r); [|reflexivity].
    discriminate IH.
Qed.

End Split.

Lemma digit_free_slash (c : char) :
  is_digit c = true -> N.eqb c (chr "/") = false.
Proof.
  intros D. apply is_digit_cases in D.
  repeat (destruct D as [D|D]; [subst c; reflexivity|]).
  subst c; reflexivity.
Qed.

Lemma digit_free_dash (c : char) :
  is_digit c = true -> N.eqb c (chr "-") = false.
Proof.
  intros D. apply is_digit_cases in D.
  repeat (destruct D as [D|D]; [subst c; reflexivity|]).
  subst c; reflexivity.
Qed.

Lemma digits_free (sep : char) (a : jsstring) :
  (forall c, is_digit c = true -> N.eqb c sep = false) ->
  forallb is_digit a = true -> free sep a = true.
Proof.
  intros H. induction a as [|c r IH]; intros A; [reflexivity|].
  simpl in A. apply andb_true_iff in A. destruct A as [D A].
  simpl. rewrite (H c D), (IH A). reflexivity.
Qed.

(** ** The date transforms *)

Lemma is_ddmmyyyy_fields (s : jsstring) :
  is_ddmmyyyy s = true ->
  exists dd mm yyyy,
    s = dd ++ chr "/" :: mm ++ chr "/" :: yyyy
    /\ forallb is_digit dd = true /\ forallb is_digit mm = true
    /\ forallb is_digit yyyy = true.
Proof.
  intros H.
  do 10 (destruct s as [|? s]; [discriminate H|]).
  destruct s; [|discriminate H].
  cbn [is_ddmmyyyy forallb] in H. unfold is_char in H.
  rewrite !andb_true_iff, !N.eqb_eq in H.
  decompose [and] H; clear H; subst.
  exists [c; c0], [c2; c3], [c5; c6; c7; c8]. cbn [forallb app].
  repeat match goal with E : is_digit _ = true |- _ => rewrite E; clear E end.
  auto.
Qed.

Section Transforms.

Variable h : Host.

(** The two transforms undo each other on three fields that hold
    neither separator. *)
Lemma formatPtBrDateToEn_fields (dd mm yyyy : jsstring) :
  free (chr "/") dd = true -> free (chr "/") mm = true ->
  free (chr "/") yyyy = true ->
  isDate h (dd ++ chr "/" :: mm ++ chr "/" :: yyyy) = true ->
  formatPtBrDateToEn h (dd ++ chr "/" :: mm ++ chr "/" :: yyyy)
  = Str (yyyy ++ chr "-" :: mm ++ chr "-" :: dd).
Proof.
  intros A B C D. unfold formatPtBrDateToEn.
  rewrite D, split_three by assumption. reflexivity.
Qed.

Lemma formatEnDateToPtBr_fields (dd mm yyyy : jsstring) :
  free (chr "-") dd = true -> free (chr "-") mm = true ->
  free (chr "-") yyyy = true ->
  isDate h (yyyy ++ chr "-" :: mm ++ chr "-" :: dd) = true ->
  formatEnDateToPtBr h (yyyy ++ chr "-" :: mm ++ chr "-" :: dd)
  = Str (dd ++ chr "/" :: mm ++ chr "/" :: yyyy).
Proof.
  intros A B C D. unfold formatEnDateToPtBr.
  rewrite D, split_three by assumption. reflexivity.
Qed.

End Transforms.

(** ** Quantified sequences *)

Lemma greedy_some (p : char -> bool) (k : jsstring -> option jsstring)
      (s : jsstring) :
  forall lo hi,
    (exists e, greedy p lo hi k s = Some e) <->
    (exists n, lo <= n /\ within hi n /\ n <= length s
               /\ forallb p (firstn n s) = true
               /\ exists e, k (skipn n s) = Some e).
Proof.
  induction s as [|c r IH]; intros lo hi.
  - cbn [greedy]. split.
    + intros [e E]. destruct lo; [|discriminate E].
      exists 0. repeat split; auto; [destruct hi; simpl; lia|now exists e].
    + intros (n & L & _ & B & _ & e & E). simpl in B.
      assert (n = 0) by lia. subst n. assert (lo = 0) by lia. subst lo.
      exists e. exact E.
  - cbn [greedy]. split.
    + intros [e E].
      assert ((p c && may_take hi = true
               /\ exists e', greedy p (pred lo) (option_map pred hi) k r = Some e')
              \/ (lo = 0 /\ k (c :: r) = Some e)) as [[T [e' E']]|[Z E']].
      { destruct (p c && may_take hi)%bool.
        - destruct (greedy p (pred lo) (option_map pred hi) k r) as [e'|] eqn:G.
          + left. split; [reflexivity|]. now exists e'.
          + right. destruct lo; [auto|discriminate E].
        - right. destruct lo; [auto|discriminate E]. }
      * apply andb_true_iff in T. destruct T as [Pc M].
        destruct (proj1 (IH _ _) (ex_intro _ e' E')) as (n & L & W & B & F & K).
        exists (S n). cbn [firstn skipn forallb length]. rewrite Pc, F.
        repeat split; try lia; [|exact K].
        destruct hi as [[|m]|]; simpl in *; try discriminate; lia.
      * subst lo. exists 0. cbn [firstn skipn forallb].
        repeat split; try lia; [destruct hi; simpl; lia|now exists e].
    + intros (n & L & W & B & F & e & E).
      destruct n as [|n].
      * assert (lo = 0) by lia. subst lo. cbn [skipn] in E.
        destruct (p c && may_take hi)%bool; [|now exists e].
        destruct (greedy p (pred 0) (option_map pred hi) k r) as [e'|];
          [now exists e'|now exists e].
      * cbn [firstn forallb skipn length] in *.
        apply andb_true_iff in F. destruct F as [Pc F].
        assert (may_take hi = true) as M
            by (destruct hi as [[|m]|]; simpl in *; [lia|reflexivity|reflexivity]).
        rewrite Pc, M. cbn [andb].
        assert (exists e', greedy p (pred lo) (option_map pred hi) k r = Some e')
          as [e' E'].
        { apply IH. exists n. repeat split; try lia; [|exact F|now exists e].
          destruct hi as [[|m]|]; simpl in *; lia. }
        rewrite E'. now exists e'.
Qed.

Lemma run_some (n : nat) (cap : option char) (ts : list term) :
  forallb plain ts = true ->
  forall s, (exists e, run n ts cap s = Some e) <-> seq_matches ts s.
Proof.
  induction ts as [|t ts IH]; intros P s.
  - simpl. split; [auto|]. intros _. now exists s.
  - cbn [forallb] in P. apply andb_true_iff in P. destruct P as [Pt P].
    destruct t; try discriminate Pt; cbn [run seq_matches].
    + destruct s as [|c r].
      * rewrite (IH P). split; [auto|]. intros [_ H]. exact H.
      * split; [intros [e E]; discriminate E|]. intros [E _]. discriminate E.
    + rewrite greedy_some. split.
      * intros (m & L & W & B & F & K). exists m.
        repeat split; try assumption. apply (IH P), K.
      * intros (m & L & W & B & F & K). exists m.
        repeat split; try assumption. apply (IH P), K.
Qed.

Lemma test_plain (ts : list term) (s : jsstring) :
  forallb plain ts = true ->
  (test [Bol :: ts] s = true <-> seq_matches ts s).
Proof.
  intros P. rewrite test_anchored, <- (run_some (length s) None ts P s).
  destruct (run (length s) ts None s) as [e|].
  - split; [now exists e|reflexivity].
  - split; [discriminate|]. intros [e E]. discriminate E.
Qed.

(** ** More on the CPF check digits *)

Lemma filter_digits_id (s : jsstring) :
  forallb is_digit s = true -> filter is_digit s = s.
Proof.
  induction s as [|c r IH]; intros A; [reflexivity|].
  simpl in A. apply andb_true_iff in A. destruct A as [D A].
  simpl. rewrite D, (IH A). reflexivity.
Qed.

Lemma forallb_firstn (p : char -> bool) (n : nat) (s : jsstring) :
  forallb p s = true -> forallb p (firstn n s) = true.
Proof.
  revert n. induction s as [|c r IH]; intros n A; destruct n; try reflexivity.
  simpl in A. apply andb_true_iff in A. destruct A as [D A].
  simpl. rewrite D. apply IH, A.
Qed.

Lemma charAt_firstn (m i : nat) (s : jsstring) :
  i < m -> charAt (firstn m s) i = charAt s i.
Proof.
  intros L. unfold charAt. rewrite nth_error_firstn.
  destruct (Nat.ltb_spec i m); [reflexivity|lia].
Qed.

Lemma weighted_sum_firstn (m : nat) (s : jsstring) (w : nat) :
  forall n, n <= m -> weighted_sum (firstn m s) n w = weighted_sum s n w.
Proof.
  induction n as [|n IH]; intros L; [reflexivity|].
  rewrite !weighted_sum_S, IH, charAt_firstn by lia. reflexivity.
Qed.

Lemma weighted_agree (a b : list Z) (w : nat) :
  forall n, (forall i, i < n -> digit a i = digit b i) ->
            weighted a n w = weighted b n w.
Proof.
  induction n as [|n IH]; intros H; [reflexivity|].
  cbn [weighted]. rewrite IH, (H n) by auto with arith. reflexivity.
Qed.

Lemma check_range (x : Z) : (0 <= check x <= 9)%Z.
Proof.
  unfold check. pose proof (Z.mod_pos_bound x 11 ltac:(lia)) as B.
  cbv zeta.
  destruct (11 - x mod 11 =? 10)%Z eqn:E1; [cbn [orb]; lia|].
  destruct (11 - x mod 11 =? 11)%Z eqn:E2; [cbn [orb]; lia|].
  cbn [orb]. apply Z.eqb_neq in E1, E2. lia.
Qed.

Lemma chr_of_digit_ok (z : Z) :
  (0 <= z <= 9)%Z ->
  is_digit (chr_of_digit z) = true /\ digit_of (chr_of_digit z) = z.
Proof.
  intros R. unfold is_digit, in_range, digit_of, chr_of_digit.
  rewrite andb_true_iff, !N.leb_le. lia.
Qed.

Lemma digit_of_inj (c c' : char) : digit_of c = digit_of c' -> c = c'.
Proof. unfold digit_of. lia. Qed.

Lemma digits_all (s : jsstring) :
  forallb is_digit s = true -> digits s = map digit_of s.
Proof. intros A. unfold digits. rewrite filter_digits_id by exact A. reflexivity. Qed.

Lemma cpf_short_false (input : jsstring) :
  length (filter is_digit input) < 11 -> isValidCpf input = false.
Proof.
  intros L. unfold isValidCpf. rewrite strip_digits.
  set (cpf := filter is_digit input) in *.
  destruct (Nat.le_gt_cases (length cpf) 9) as [S|S].
  - rewrite (parseInt_charAt_out cpf 9 S), strict_neq_NaN. reflexivity.
  - destruct (_ !== _)%js; [reflexivity|].
    rewrite (parseInt_charAt_out cpf 10) by lia.
    rewrite strict_neq_NaN. reflexivity.
Qed.

Lemma cpf_valid_length (input : jsstring) :
  isValidCpf input = true -> 11 <= length (filter is_digit input).
Proof.
  intros V. destruct (Nat.le_gt_cases 11 (length (filter is_digit input)))
    as [L|L]; [exact L|].
  rewrite (cpf_short_false input L) in V. discriminate V.
Qed.

Lemma cpf_valid_checks (input : jsstring) :
  isValidCpf input = true ->
  first_check (digits input) = digit (digits input) 9
  /\ second_check (digits input) = digit (digits input) 10.
Proof.
  intros V. pose proof (cpf_valid_length input V) as L.
  rewrite (isValidCpf_eq input L), andb_true_iff, !Z.eqb_eq in V. exact V.
Qed.

Lemma firstn_snoc (d : char) (s : jsstring) :
  forall n, n < length s -> firstn (S n) s = firstn n s ++ [nth n s d].
Proof.
  induction s as [|c r IH]; intros n L; simpl in L; [lia|].
  destruct n as [|n]; [reflexivity|].
  cbn [firstn nth app]. rewrite <- IH by lia. reflexivity.
Qed.

Lemma digit_digits (input : jsstring) (i : nat) :
  digit (digits input) i = digit_of (nth i (filter is_digit input) 48%N).
Proof.
  unfold digit, digits.
  change 0%Z with (digit_of 48). apply map_nth.
Qed.

Lemma prefix_digits_agree (a b : jsstring) (m : nat) :
  firstn m (filter is_digit a) = firstn m (filter is_digit b) ->
  forall i, i < m -> digit (digits a) i = digit (digits b) i.
Proof.
  intros H i L. rewrite !digit_digits.
  assert (forall s : jsstring, nth i s 48%N = nth i (firstn m s) 48%N) as X.
  { intros s. rewrite nth_firstn.
    destruct (Nat.ltb_spec i m); [reflexivity|lia]. }
  rewrite (X (filter is_digit a)), (X (filter is_digit b)), H. reflexivity.
Qed.

Lemma prefix_extend (a b : jsstring) (m : nat) :
  m < length (filter is_digit a) -> m < length (filter is_digit b) ->
  firstn m (filter is_digit a) = firstn m (filter is_digit b) ->
  digit (digits a) m = digit (digits b) m ->
  firstn (S m) (filter is_digit a) = firstn (S m) (filter is_digit b).
Proof.
  intros La Lb H D. rewrite !digit_digits in D. apply digit_of_inj in D.
  rewrite !(firstn_snoc 48%N) by assumption.
  rewrite H. f_equal. f_equal. exact D.
Qed.

(** ** The e-mail pattern and the trimming *)

Ltac bool_ranges :=
  apply eq_iff_eq_true;
  repeat rewrite ?orb_true_iff, ?andb_true_iff, ?negb_true_iff,
    ?orb_false_iff, ?andb_false_iff, ?N.leb_le, ?N.eqb_eq, ?N.leb_gt, ?N.eqb_neq;
  lia.

Ltac unfold_case :=
  unfold ignore_case, to_upper, to_lower;
  match goal with
  | |- context [if in_range 97 122 ?c then _ else _] =>
      destruct (in_range 97 122 c) eqn:?Lo;
      destruct (in_range 65 90 c) eqn:?Up
  end;
  unfold in_range in *;
  repeat match goal with
         | H : (_ && _)%bool = true |- _ =>
             apply andb_true_iff in H; destruct H as [? ?]
         | H : (_ && _)%bool = false |- _ => apply andb_false_iff in H
         | H : N.leb _ _ = true |- _ => apply N.leb_le in H
         end;
  repeat rewrite N.leb_gt in *.

Lemma ignore_case_email_class (c : char) :
  ignore_case email_class c = email_class c.
Proof.
  unfold_case; unfold email_class, is_alpha, is_digit, is_char, in_range;
    cbn [chr N_of_ascii N_of_digits]; bool_ranges.
Qed.

Lemma ignore_case_is_alpha (c : char) : ignore_case is_alpha c = is_alpha c.
Proof.
  unfold_case; unfold is_alpha, in_range; bool_ranges.
Qed.

Lemma ignore_case_at (c : char) :
  ignore_case (is_char "@") c = is_char "@" c.
Proof.
  unfold_case; unfold is_char; cbn [chr N_of_ascii N_of_digits]; bool_ranges.
Qed.

Lemma ignore_case_period (c : char) :
  ignore_case (is_char ".") c = is_char "." c.
Proof.
  unfold_case; unfold is_char; cbn [chr N_of_ascii N_of_digits]; bool_ranges.
Qed.

Lemma forallb_pointwise (p q : char -> bool) (l : jsstring) :
  (forall c, p c = q c) -> forallb p l = forallb q l.
Proof.
  intros E. induction l as [|c r IH]; [reflexivity|].
  simpl. rewrite E, IH. reflexivity.
Qed.

Lemma take_one (a : ascii) (n : nat) (x : jsstring) :
  1 <= n -> n <= 1 -> n <= length x ->
  forallb (is_char a) (firstn n x) = true ->
  x = chr a :: skipn n x.
Proof.
  intros L U B F. assert (n = 1) by lia. subst n.
  destruct x as [|c r]; [simpl in B; lia|].
  cbn [firstn forallb skipn] in *. rewrite andb_true_r in F.
  apply N.eqb_eq in F. subst c. reflexivity.
Qed.

Lemma take_all (n : nat) (x : jsstring) :
  n <= length x -> skipn n x = [] -> firstn n x = x /\ n = length x.
Proof.
  intros B S. pose proof (firstn_skipn n x) as E. rewrite S, app_nil_r in E.
  split; [exact E|].
  apply (f_equal (@length char)) in S. rewrite length_skipn in S.
  simpl in S. lia.
Qed.

Lemma firstn_length_app (a b : jsstring) : firstn (length a) (a ++ b) = a.
Proof.
  rewrite firstn_app, Nat.sub_diag, firstn_all. simpl. apply app_nil_r.
Qed.

Lemma skipn_length_app (a b : jsstring) : skipn (length a) (a ++ b) = b.
Proof.
  rewrite skipn_app, Nat.sub_diag, skipn_all. reflexivity.
Qed.

Lemma nonempty_length (x : jsstring) : x <> [] <-> 1 <= length x.
Proof.
  destruct x; simpl; split; intros H; try lia; try discriminate.
  contradiction H; reflexivity.
Qed.

Lemma re_email_shape (e : jsstring) :
  test re_email e = true <-> email_shape e.
Proof.
  unfold re_email, email_shape. rewrite test_plain by reflexivity.
  cbn [seq_matches One Plus within].
  split.
  - intros (n1 & L1 & _ & B1 & F1 & n2 & L2 & U2 & B2 & F2
            & n3 & L3 & _ & B3 & F3 & n4 & L4 & U4 & B4 & F4
            & n5 & L5 & U5 & B5 & F5 & E & _).
    rewrite (forallb_pointwise _ _ _ ignore_case_email_class) in F1.
    rewrite (forallb_pointwise _ _ _ ignore_case_email_class) in F3.
    rewrite (forallb_pointwise _ _ _ ignore_case_at) in F2.
    rewrite (forallb_pointwise _ _ _ ignore_case_period) in F4.
    rewrite (forallb_pointwise _ _ _ ignore_case_is_alpha) in F5.
    set (r1 := skipn n1 e) in *. set (r2 := skipn n2 r1) in *.
    set (r3 := skipn n3 r2) in *. set (r4 := skipn n4 r3) in *.
    destruct (take_all n5 r4 B5 E) as [T5 N5]. rewrite T5 in F5.
    exists (firstn n1 e), (firstn n3 r2), r4.
    repeat split; try assumption; try lia.
    + rewrite <- (firstn_skipn n1 e) at 1. f_equal. fold r1.
      rewrite (take_one "@" n2 r1 L2 U2 B2 F2). f_equal. fold r2.
      rewrite <- (firstn_skipn n3 r2) at 1. f_equal. fold r3.
      apply (take_one "." n4 r3 L4 U4 B4 F4).
    + apply nonempty_length. rewrite length_firstn. lia.
    + apply nonempty_length. rewrite length_firstn. lia.
  - intros (local & domain & tld & -> & N1 & F1 & N2 & F2 & [L5 U5] & F5).
    apply nonempty_length in N1, N2.
    exists (length local). rewrite firstn_length_app, skipn_length_app.
    rewrite (forallb_pointwise _ _ _ ignore_case_email_class).
    repeat split; try assumption; [rewrite length_app; lia|].
    exists 1. cbn [firstn skipn forallb length].
    rewrite ignore_case_at. unfold is_char at 1. rewrite N.eqb_refl.
    repeat split; try lia.
    exists (length domain). rewrite firstn_length_app, skipn_length_app.
    rewrite (forallb_pointwise _ _ _ ignore_case_email_class).
    repeat split; try assumption; [rewrite length_app; lia|].
    exists 1. cbn [firstn skipn forallb length].
    rewrite ignore_case_period. unfold is_char at 1. rewrite N.eqb_refl.
    repeat split; try lia.
    exists (length tld). rewrite firstn_all, skipn_all.
    rewrite (forallb_pointwise _ _ _ ignore_case_is_alpha).
    repeat split; try assumption; lia.
Qed.

Lemma drop_trailing_spaces (s : jsstring) :
  forallb is_space s = true -> drop_trailing s = [].
Proof.
  destruct s as [|c r]; [reflexivity|]. intros A. cbn [drop_trailing].
  rewrite A. reflexivity.
Qed.

Lemma trim_tail (n : nat) (s : jsstring) :
  length s < n -> replace_from n re_trim [] s = drop_trailing s.
Proof.
  induction s as [|c r IH]; intros L.
  - destruct n; [simpl in L; lia|]. reflexivity.
  - cbn [replace_from re_trim match_at].
    assert (run n [Bol; Plus is_space] None (c :: r) = None) as A1.
    { cbn [run]. destruct (Nat.eqb_spec (length (c :: r)) n); [lia|reflexivity]. }
    rewrite A1. cbn [run Plus].
    rewrite (greedy_ext is_space (run n [Eol] None) at_end)
      by (intro; apply run_Eol).
    rewrite greedy_to_end. cbn [length Nat.leb andb drop_trailing].
    destruct (forallb is_space (c :: r)); [reflexivity|].
    rewrite IH by (simpl in L; lia). reflexivity.
Qed.

(** What the first line of [email] leaves of its input. *)
Lemma replace_trim (s : jsstring) : replace re_trim [] s = trim_once s.
Proof.
  unfold replace. destruct s as [|c r]; [reflexivity|].
  cbn [replace_from re_trim match_at run Plus].
  rewrite Nat.eqb_refl. cbn [greedy may_take pred option_map].
  rewrite greedy_all, andb_true_r. cbn [trim_once dropwhile].
  destruct (is_space c) eqn:Sc; [reflexivity|].
  rewrite trim_tail by (simpl; lia).
  cbn [drop_trailing forallb]. rewrite Sc. reflexivity.
Qed.

Lemma email_eq (input : jsstring) :
  email input = test re_email (trim_once input).
Proof. unfold email. rewrite replace_trim. reflexivity. Qed.

Lemma dropwhile_spaces_app (ws s : jsstring) :
  forallb is_space ws = true ->
  dropwhile is_space (ws ++ s) = dropwhile is_space s.
Proof.
  induction ws as [|c r IH]; intros A; [reflexivity|].
  simpl in A. apply andb_true_iff in A. destruct A as [Sc A].
  simpl. rewrite Sc. apply IH, A.
Qed.

Lemma ends_not_all_spaces (s ws : jsstring) :
  ends_with (fun c => negb (is_space c)) s = true ->
  forallb is_space (s ++ ws) = false.
Proof.
  induction s as [|c r IH]; intros E; [discriminate E|].
  destruct r as [|c' r'].
  - simpl in E. apply negb_true_iff in E. simpl. rewrite E. reflexivity.
  - change (forallb is_space ((c :: c' :: r') ++ ws))
      with (is_space c && forallb is_space ((c' :: r') ++ ws))%bool.
    rewrite (IH E). apply andb_false_r.
Qed.

Lemma drop_trailing_app (s ws : jsstring) :
  ends_with (fun c => negb (is_space c)) s = true ->
  forallb is_space ws = true ->
  drop_trailing (s ++ ws) = s.
Proof.
  induction s as [|c r IH]; intros E A; [discriminate E|].
  change (drop_trailing ((c :: r) ++ ws))
    with (if forallb is_space ((c :: r) ++ ws) then []
          else c :: drop_trailing (r ++ ws)).
  rewrite (ends_not_all_spaces (c :: r) ws E). f_equal.
  destruct r as [|c' r'].
  - apply drop_trailing_spaces, A.
  - apply IH; [exact E|exact A].
Qed.

Lemma trim_once_clean (s : jsstring) : clean s = true -> trim_once s = s.
Proof.
  destruct s as [|c r]; [reflexivity|]. intros C.
  cbn [clean] in C. apply andb_true_iff in C. destruct C as [Sc E].
  apply negb_true_iff in Sc. cbn [trim_once]. rewrite Sc.
  rewrite <- (app_nil_r (c :: r)) at 1. apply drop_trailing_app; auto.
Qed.

Lemma trim_once_leading (ws s : jsstring) :
  forallb is_space ws = true -> clean s = true -> trim_once (ws ++ s) = s.
Proof.
  intros A C. destruct ws as [|w ws']; [apply trim_once_clean, C|].
  cbn [forallb] in A. apply andb_true_iff in A. destruct A as [Sw A].
  cbn [app trim_once]. rewrite Sw.
  change (w :: ws' ++ s) with ((w :: ws') ++ s).
  rewrite dropwhile_spaces_app by (cbn [forallb]; rewrite Sw, A; reflexivity).
  destruct s as [|c r]; [reflexivity|].
  cbn [clean] in C. apply andb_true_iff in C. destruct C as [Sc _].
  apply negb_true_iff in Sc. cbn [dropwhile]. rewrite Sc. reflexivity.
Qed.

Lemma dropwhile_spaces (ws : jsstring) :
  forallb is_space ws = true -> dropwhile is_space ws = [].
Proof.
  induction ws as [|c r IH]; intros A; [reflexivity|].
  simpl in A. apply andb_true_iff in A. destruct A as [Sc A].
  simpl. rewrite Sc. apply IH, A.
Qed.

Lemma trim_once_trailing (ws s : jsstring) :
  forallb is_space ws = true -> clean s = true -> trim_once (s ++ ws) = s.
Proof.
  intros A C. destruct s as [|c r].
  - cbn [app]. destruct ws as [|w ws']; [reflexivity|].
    cbn [trim_once]. cbn [forallb] in A.
    destruct (is_space w) eqn:Sw; [|discriminate A].
    apply (dropwhile_spaces (w :: ws')). cbn [forallb]. rewrite Sw. exact A.
  - cbn [clean] in C. apply andb_true_iff in C. destruct C as [Sc E].
    apply negb_true_iff in Sc. cbn [app trim_once]. rewrite Sc.
    apply (drop_trailing_app (c :: r) ws E A).
Qed.

Lemma class_not_at (l : jsstring) :
  forallb email_class l = true -> count_occ N.eq_dec l (chr "@") = 0.
Proof.
  induction l as [|c r IH]; intros A; [reflexivity|].
  cbn [forallb] in A. apply andb_true_iff in A. destruct A as [Cc A].
  cbn [count_occ]. destruct (N.eq_dec c (chr "@")) as [->|_].
  - discriminate Cc.
  - apply IH, A.
Qed.

Lemma alpha_not_at (l : jsstring) :
  forallb is_alpha l = true -> count_occ N.eq_dec l (chr "@") = 0.
Proof.
  induction l as [|c r IH]; intros A; [reflexivity|].
  cbn [forallb] in A. apply andb_true_iff in A. destruct A as [Cc A].
  cbn [count_occ]. destruct (N.eq_dec c (chr "@")) as [->|_].
  - discriminate Cc.
  - apply IH, A.
Qed.

Lemma class_not_space (c : char) : email_class c = true -> is_space c = false.
Proof.
  intros A. destruct (is_space c) eqn:S; [|reflexivity].
  exfalso. revert A S.
  unfold email_class, is_alpha, is_digit, is_char, is_space, in_range;
    cbn [chr N_of_ascii N_of_digits].
  repeat rewrite ?orb_true_iff, ?andb_true_iff, ?N.leb_le, ?N.eqb_eq. lia.
Qed.

Lemma shape_no_space (e : jsstring) :
  email_shape e -> forallb (fun c => negb (is_space c)) e = true.
Proof.
  intros (local & domain & tld & -> & _ & F1 & _ & F2 & _ & F5).
  rewrite forallb_app. cbn [forallb]. rewrite forallb_app. cbn [forallb].
  assert (forall l, forallb email_class l = true ->
                    forallb (fun c => negb (is_space c)) l = true) as K.
  { intros l. rewrite !forallb_forall. intros H c I.
    rewrite (class_not_space c (H c I)). reflexivity. }
  rewrite (K local F1), (K domain F2).
  assert (forallb email_class tld = true) as F5'.
  { rewrite forallb_forall in *. intros c I. unfold email_class.
    rewrite (F5 c I). rewrite !orb_true_r. reflexivity. }
  rewrite (K tld F5'). reflexivity.
Qed.

Lemma shape_nonempty (e : jsstring) : email_shape e -> e <> [].
Proof.
  intros (local & domain & tld & -> & N & _). destruct local; [contradiction N; reflexivity|discriminate].
Qed.

Lemma dropwhile_before_spaces (x ws : jsstring) :
  ws <> [] -> forallb is_space ws = true ->
  forallb (fun c => negb (is_space c)) (dropwhile is_space (x ++ ws)) = true ->
  dropwhile is_space (x ++ ws) = [].
Proof.
  intros N A. induction x as [|c r IH]; intros F.
  - apply dropwhile_spaces, A.
  - cbn [app dropwhile] in *. destruct (is_space c) eqn:Sc; [apply IH, F|].
    exfalso. cbn [forallb] in F. apply andb_true_iff in F. destruct F as [_ F].
    rewrite forallb_app in F. apply andb_true_iff in F. destruct F as [_ F].
    destruct ws as [|w ws']; [contradiction N; reflexivity|].
    cbn [forallb] in A, F.
    apply andb_true_iff in A. destruct A as [Sw _].
    rewrite Sw in F. discriminate F.
Qed.

(** ** The date switch *)

Lemma date_switch_pt (h : Host) (input : jsstring) :
  date h input (str "pt") =
  let dateBr := split (chr "/") input in
  if negb (Nat.eqb (length dateBr) 3) then false
  else
    let date := elem dateBr 2 ++ str "-" ++ elem dateBr 1
                ++ str "-" ++ elem dateBr 0 in
    let dateInfo := parse h (date ++ str " " ++ localeTime h) in
    if num_gt dateInfo (Fin (now h)) then false else true.
Proof.
  unfold date.
  destruct (list_eq_dec N.eq_dec (str "pt") (str "pt")) as [_|N];
    [reflexivity|contradiction N; reflexivity].
Qed.

Lemma date_switch_default (h : Host) (input format : jsstring) :
  format <> str "pt" ->
  date h input format =
  let dateInfo := parse h (input ++ str " " ++ localeTime h) in
  if num_gt dateInfo (Fin (now h)) then false else true.
Proof.
  intros N. unfold date.
  destruct (list_eq_dec N.eq_dec format (str "pt")) as [E|_];
    [contradiction|reflexivity].
Qed.

Lemma is_yyyymmdd_fields (s : jsstring) :
  is_yyyymmdd s = true ->
  exists dd mm yyyy,
    s = yyyy ++ chr "-" :: mm ++ chr "-" :: dd
    /\ forallb is_digit dd = true /\ forallb is_digit mm = true
    /\ forallb is_digit yyyy = true.
Proof.
  intros H.
  do 10 (destruct s as [|? s]; [discriminate H|]).
  destruct s; [|discriminate H].
  cbn [is_yyyymmdd forallb] in H. unfold is_char in H.
  rewrite !andb_true_iff, !N.eqb_eq in H.
  decompose [and] H; clear H; subst.
  exists [c7; c8], [c4; c5], [c; c0; c1; c2]. cbn [forallb app].
  repeat match goal with E : is_digit _ = true |- _ => rewrite E; clear E end.
  auto.
Qed.

(** ** Uninitialised values *)

Lemma uninitialized_iff (v : value) :
  (is_empty_string v || isNull v || isUndefined v)%bool = true
  <-> uninitialized v.
Proof.
  unfold uninitialized. destruct v as [| | b | n | [|c r] |]; simpl;
    split; intros H; try reflexivity; try discriminate H; auto;
    destruct H as [H|[H|H]]; discriminate H.
Qed.

(** ** The text pattern *)

Lemma filter_dropwhile (p : char -> bool) (s : jsstring) :
  filter (fun c => negb (p c)) (dropwhile p s)
  = filter (fun c => negb (p c)) s.
Proof.
  induction s as [|c r IH]; simpl; [reflexivity|].
  destruct (p c) eqn:E; simpl; [exact IH|].
  rewrite E. reflexivity.
Qed.

Lemma remove_runs_from (p : char -> bool) (fuel n : nat) :
  forall s, length s < fuel ->
            replace_g_from fuel n [[Rep p 1 None]] [] s
            = filter (fun c => negb (p c)) s.
Proof.
  induction fuel as [|fuel IH]; intros s L; [lia|].
  destruct s as [|c r]; [reflexivity|].
  cbn [replace_g_from match_at run].
  cbn [greedy may_take pred option_map].
  rewrite greedy_all.
  simpl in L. cbn [filter].
  destruct (p c) eqn:E; cbn [negb andb].
  - pose proof (dropwhile_length p r) as D.
    destruct (Nat.ltb_spec (length (dropwhile p r)) (length (c :: r)))
      as [_|G]; [|simpl in G; lia].
    cbn [app]. rewrite IH by lia. apply filter_dropwhile.
  - f_equal. apply IH. lia.
Qed.

(** Removing every run of a class keeps the rest, in order. *)
Lemma remove_runs (p : char -> bool) (s : jsstring) :
  replace_g [[Rep p 1 None]] [] s = filter (fun c => negb (p c)) s.
Proof. apply remove_runs_from. lia. Qed.

Lemma filter_spaces_nil (s : jsstring) :
  forallb is_space s = true -> filter non_space s = [].
Proof.
  induction s as [|c r IH]; intros A; [reflexivity|].
  simpl in A. apply andb_true_iff in A. destruct A as [Sc A].
  simpl. unfold non_space at 1. rewrite Sc. apply IH, A.
Qed.

Lemma filter_drop_trailing (s : jsstring) :
  filter non_space (drop_trailing s) = filter non_space s.
Proof.
  induction s as [|c r IH]; [reflexivity|].
  cbn [drop_trailing]. destruct (forallb is_space (c :: r)) eqn:A.
  - symmetry. apply filter_spaces_nil, A.
  - cbn [filter]. rewrite IH. reflexivity.
Qed.

Lemma filter_trim (s : jsstring) :
  filter non_space (trim s) = filter non_space s.
Proof.
  unfold trim. rewrite filter_drop_trailing. apply (filter_dropwhile is_space).
Qed.

Lemma filter_non_space_all (s : jsstring) :
  forallb non_space (filter non_space s) = true.
Proof.
  induction s as [|c r IH]; simpl; [reflexivity|].
  destruct (non_space c) eqn:E; simpl; [rewrite E|]; exact IH.
Qed.

Lemma non_space_dot (c : char) : non_space c = true -> dot c = true.
Proof.
  unfold non_space, dot, is_space, in_range. intros H.
  apply negb_true_iff in H. apply negb_true_iff.
  revert H.
  repeat rewrite ?orb_false_iff, ?andb_false_iff, ?N.leb_gt, ?N.eqb_neq. lia.
Qed.

Lemma text_class_letters (c : char) :
  ignore_case1 text_class c = text_letter c.
Proof.
  unfold ignore_case1, to_upper1, to_lower1.
  destruct (in_range 97 122 c || latin1_lower c)%bool eqn:Lo;
    destruct (in_range 65 90 c || latin1_upper c)%bool eqn:Up;
    revert Lo Up;
    unfold text_letter, text_class, word, is_alpha, is_digit, is_char,
      latin1_lower, latin1_upper, in_range;
    cbn [chr N_of_ascii N_of_digits];
    repeat rewrite ?orb_true_iff, ?andb_true_iff, ?negb_true_iff,
      ?orb_false_iff, ?andb_false_iff, ?negb_false_iff,
      ?N.leb_le, ?N.eqb_eq, ?N.leb_gt, ?N.eqb_neq;
    intros Lo Up; bool_ranges.
Qed.

Lemma forallb_firstn_le (p : char -> bool) (s : jsstring) (i j : nat) :
  i <= j -> forallb p (firstn j s) = true -> forallb p (firstn i s) = true.
Proof.
  revert i j. induction s as [|c r IH]; intros i j L A.
  - destruct i; reflexivity.
  - destruct i as [|i]; [reflexivity|].
    destruct j as [|j]; [lia|].
    cbn [firstn forallb] in *. apply andb_true_iff in A. destruct A as [Pc A].
    rewrite Pc. apply (IH i j); [lia|exact A].
Qed.

Lemma forallb_skipn (p : char -> bool) (n : nat) (s : jsstring) :
  forallb p s = true -> forallb p (skipn n s) = true.
Proof.
  revert n. induction s as [|c r IH]; intros n A; destruct n; auto.
  cbn [skipn]. cbn [forallb] in A. apply andb_true_iff in A. apply IH, A.
Qed.

Lemma re_text_eq (t : jsstring) :
  forallb non_space t = true ->
  test re_text t
  = (Nat.leb 3 (length t) && forallb text_letter (firstn 2 t))%bool.
Proof.
  intros NS. apply eq_iff_eq_true.
  unfold re_text. rewrite test_plain by reflexivity.
  cbn [seq_matches Plus within].
  rewrite andb_true_iff, Nat.leb_le. split.
  - intros (n1 & L1 & _ & B1 & F1 & n2 & _ & U2 & B2 & _
            & n3 & L3 & _ & B3 & _ & _).
    rewrite !length_skipn in *.
    split; [lia|].
    rewrite (forallb_pointwise _ _ _ text_class_letters) in F1.
    apply (forallb_firstn_le text_letter t 2 n1 L1 F1).
  - intros [L F].
    exists 2. rewrite (forallb_pointwise _ _ _ text_class_letters).
    repeat split; try lia; [exact F|].
    exists 0. rewrite firstn_O, skipn_O.
    repeat split; try lia.
    exists (length (skipn 2 t)).
    rewrite firstn_all, skipn_all.
    repeat split; try (rewrite ?length_skipn; lia).
    apply forallb_skipn. rewrite forallb_forall in *.
    intros c I. apply non_space_dot, NS, I.
Qed.

(** ** The validators on the documented examples *)

Example split_examples :
  split (chr "/") (str "25/12/2024") = [str "25"; str "12"; str "2024"]
  /\ split (chr "/") (str "") = [str ""]
  /\ split (chr "/") (str "/a/") = [str ""; str "a"; str ""].
Proof. repeat split; reflexivity. Qed.

Example replace_examples :
  replace re_trim [] (str "  a b") = str "a b"
  /\ replace re_trim [] (str "a b  ") = str "a b"
  /\ replace_g re_non_digits [] (str "(11) 3333-4444") = str "1133334444".
Proof. repeat split; reflexivity. Qed.

Example email_examples :
  email (str "a@b.co") = true
  /\ email (str "A.b+c_d-e@Example.COM") = true
  /\ email (str "a@b.c") = false
  /\ email (str "a@b.commm") = false
  /\ email (str "a@@b.co") = false.
Proof. repeat split; reflexivity. Qed.

Example isValidCpf_examples :
  isValidCpf (str "111.444.777-35") = true
  /\ isValidCpf (str "111.444.777-36") = false.
Proof. split; reflexivity. Qed.

Example isCellPhone_examples :
  isCellPhone (str "11988887777") = true
  /\ isCellPhone (str "11188887777") = false.
Proof. split; reflexivity. Qed.

Example date_examples :
  date SampleHost.host (str "2099-01-01") (str "db") = false
  /\ date SampleHost.host (str "2000-01-01") (str "db") = true
  /\ date SampleHost.host (str "01/01/2099") (str "pt") = false
  /\ date SampleHost.host (str "01/01/2000") (str "pt") = true
  /\ date SampleHost.host (str "01/2000") (str "pt") = false.
Proof. repeat split; reflexivity. Qed.

Example notInitializeds_examples :
  notInitializeds [VString (str "a"); VString (str ""); VString (str "b")]
  = true
  /\ notInitializeds [VString (str "a"); VString (str "b")] = false
  /\ notInitializeds [VNull] = true
  /\ notInitializeds [VNumber (Fin 0); VBoolean false; VString (str " ")]
     = false.
Proof. repeat split; reflexivity. Qed.

(** * The claims *)

(** C1. On an input that keeps at least eleven digits once everything
    else is stripped, [isValidCpf] answers true exactly when both check
    digits agree with the two weighted sums modulo 11: the first check
    value, [11 - (sum of digit[i] * (10 - i), i < 9) mod 11] with 10 and 11
    read as 0, is [digit[9]], and the second, over [digit[i] * (11 - i)]
    for [i < 10], is [digit[10]]. *)
Theorem isValidCpf_check_digits (input : jsstring) :
  11 <= length (filter is_digit input) ->
  (isValidCpf input = true <->
   first_check (digits input) = digit (digits input) 9
   /\ second_check (digits input) = digit (digits input) 10).
Proof.
  intros L. rewrite (isValidCpf_eq input L).
  rewrite andb_true_iff, !Z.eqb_eq. reflexivity.
Qed.

Lemma isValidCpf_check_digits_witness :
  11 <= length (filter is_digit (str "111.444.777-35"))
  /\ (isValidCpf (str "111.444.777-35") = true <->
      first_check (digits (str "111.444.777-35"))
      = digit (digits (str "111.444.777-35")) 9
      /\ second_check (digits (str "111.444.777-35"))
         = digit (digits (str "111.444.777-35")) 10).
Proof.
  split; [vm_compute; lia|].
  apply (isValidCpf_check_digits (str "111.444.777-35")).
  vm_compute; lia.
Defined.

(** C2, as the code has it.  The pattern that trims has no [g] flag, so
    [replace] removes the leading run of white space and leaves the
    trailing one: [" a@b.co "] is refused although ["a@b.co"] is
    accepted. *)
Theorem email_keeps_trailing_space :
  email (str " a@b.co ") = false
  /\ email (str "a@b.co") = true
  /\ replace re_trim [] (str " a@b.co ") = str "a@b.co ".
Proof. repeat split; reflexivity. Qed.

(** C3. [date(input, 'pt')] splits the input on the slash and answers
    false unless that gives exactly three parts (the input has exactly two
    slashes); on three parts it parses year, month and day joined by
    dashes and followed by the current time of day, and answers false
    when the time parsed is strictly after the current one, true
    otherwise. *)
Theorem date_pt_spec (h : Host) (input : jsstring) :
  date h input (str "pt") =
  match split (chr "/") input with
  | [dd; mm; yyyy] =>
      match parse h ((yyyy ++ str "-" ++ mm ++ str "-" ++ dd)
                     ++ str " " ++ localeTime h) with
      | Fin t => negb (now h <? t)%Z
      | NaN => true
      end
  | _ => false
  end
  /\ length (split (chr "/") input)
     = S (count_occ N.eq_dec input (chr "/")).
Proof.
  split; [|apply split_length].
  unfold date.
  destruct (list_eq_dec N.eq_dec (str "pt") (str "pt")) as [_|N];
    [|contradiction N; reflexivity].
  destruct (split (chr "/") input) as [|dd [|mm [|yyyy [|x r]]]];
    try reflexivity.
  cbn [length Nat.eqb negb elem nth].
  destruct (parse h _) as [|t]; cbn [num_gt]; [reflexivity|].
  destruct (now h <? t)%Z; reflexivity.
Qed.

(** C4. When the input splits into exactly three parts and the string
    built from them does not parse to a valid date, [date(input, 'pt')]
    answers true: the comparison of [NaN] with the current time is
    false. *)
Theorem date_pt_invalid (h : Host) (input dd mm yyyy : jsstring) :
  split (chr "/") input = [dd; mm; yyyy] ->
  parse h ((yyyy ++ str "-" ++ mm ++ str "-" ++ dd)
           ++ str " " ++ localeTime h) = NaN ->
  date h input (str "pt") = true.
Proof.
  intros S P. unfold date.
  destruct (list_eq_dec N.eq_dec (str "pt") (str "pt")) as [_|N];
    [|contradiction N; reflexivity].
  rewrite S. cbn [length Nat.eqb negb elem nth]. rewrite P. reflexivity.
Qed.

Lemma date_pt_invalid_witness :
  split (chr "/") (str "45/13/2024") = [str "45"; str "13"; str "2024"]
  /\ parse SampleHost.host
       ((str "2024" ++ str "-" ++ str "13" ++ str "-" ++ str "45")
        ++ str " " ++ localeTime SampleHost.host) = NaN
  /\ date SampleHost.host (str "45/13/2024") (str "pt") = true.
Proof.
  split; [reflexivity|]. split; [reflexivity|].
  apply (date_pt_invalid SampleHost.host (str "45/13/2024")
           (str "45") (str "13") (str "2024")); reflexivity.
Defined.

(** C5. [isLandline] strips every non-digit, then answers false when what
    is left fails [isNumber], false when all the digits left are the same
    one, and otherwise true exactly when they are ten digits: two in 1-9,
    one in 2-5, three digits and four digits.  ["11999999999"] is
    refused, ["1133334444"] accepted and ["1111111111"] refused. *)
Theorem isLandline_spec :
  (forall input : jsstring,
      let d := filter is_digit input in
      isLandline input
      = (isNumber d && negb (all_identical d) && landline_digits d)%bool)
  /\ isLandline (str "11999999999") = false
  /\ isLandline (str "1133334444") = true
  /\ isLandline (str "1111111111") = false.
Proof.
  split; [exact isLandline_eq|]. repeat split; reflexivity.
Qed.

(** C6. [isNumber] answers true exactly on the strings made of one or
    more ASCII digits and nothing else; ["007"] is accepted, ["-1"],
    ["1.5"] and the empty string are refused. *)
Theorem isNumber_spec :
  (forall s : jsstring,
      isNumber s = true <->
      s <> [] /\ Forall (fun c => (48 <= c <= 57)%N) s)
  /\ isNumber (str "007") = true
  /\ isNumber (str "-1") = false
  /\ isNumber (str "1.5") = false
  /\ isNumber (str "") = false.
Proof.
  split; [|repeat split; reflexivity].
  intros s. rewrite isNumber_eq, andb_true_iff, forallb_forall, Forall_forall.
  unfold is_digit, in_range.
  split.
  - intros [L A]. split.
    + intros ->. discriminate L.
    + intros c I. specialize (A c I).
      rewrite andb_true_iff, !N.leb_le in A. exact A.
  - intros [L A]. split.
    + destruct s; [contradiction L|]; reflexivity.
    + intros c I. specialize (A c I).
      rewrite andb_true_iff, !N.leb_le. exact A.
Qed.

(** C7. For a string [s] of the shape DD/MM/YYYY that
    [formatPtBrDateToEn] turns into a string which [isDate] accepts in its
    turn, [formatEnDateToPtBr] gives [s] back. *)
Theorem format_round_trip (h : Host) (s t : jsstring) :
  is_ddmmyyyy s = true ->
  formatPtBrDateToEn h s = Str t ->
  isDate h t = true ->
  formatEnDateToPtBr h t = Str s.
Proof.
  intros Sh F D.
  destruct (is_ddmmyyyy_fields s Sh) as (dd & mm & yyyy & -> & Ad & Am & Ay).
  assert (isDate h (dd ++ chr "/" :: mm ++ chr "/" :: yyyy) = true) as Ds.
  { unfold formatPtBrDateToEn in F.
    destruct (isDate h _); [reflexivity|discriminate F]. }
  rewrite formatPtBrDateToEn_fields in F
    by (assumption || (apply digits_free; [exact digit_free_slash|assumption])).
  injection F as <-.
  apply formatEnDateToPtBr_fields;
    assumption || (apply digits_free; [exact digit_free_dash|assumption]).
Qed.

Lemma format_round_trip_witness :
  is_ddmmyyyy (str "05/12/2024") = true
  /\ formatPtBrDateToEn SampleHost.host (str "05/12/2024")
     = Str (str "2024-12-05")
  /\ isDate SampleHost.host (str "2024-12-05") = true
  /\ formatEnDateToPtBr SampleHost.host (str "2024-12-05")
     = Str (str "05/12/2024").
Proof.
  split; [reflexivity|]. split; [reflexivity|]. split; [reflexivity|].
  apply (format_round_trip SampleHost.host (str "05/12/2024")
           (str "2024-12-05")); reflexivity.
Defined.

(** C8. [isValidCpf] does not refuse a digit repeated eleven times:
    ["00000000000"] passes both comparisons, and so does the repetition of
    each of the ten digits. *)
Theorem isValidCpf_repeated_digit :
  isValidCpf (str "00000000000") = true
  /\ Forall (fun c => isValidCpf (repeat c 11) = true) (str "0123456789").
Proof.
  split; [reflexivity|].
  repeat (constructor; [vm_compute; reflexivity|]). constructor.
Qed.

(** C9. On an input that keeps fewer than eleven digits, the empty
    string included, [isValidCpf] answers false: the position read past
    the end gives the empty string, which parses to [NaN], and [NaN]
    differs from every check value. *)
Theorem isValidCpf_short (input : jsstring) :
  length (filter is_digit input) < 11 ->
  let cpf := replace_g re_non_digits [] input in
  charAt cpf 10 = []
  /\ parseInt (charAt cpf 10) = NaN
  /\ (forall rev, (rev !== NaN)%js = true)
  /\ isValidCpf input = false.
Proof.
  intros L cpf. unfold isValidCpf. fold cpf.
  assert (cpf = filter is_digit input) as E by apply strip_digits.
  assert (length cpf < 11) as Lc by (rewrite E; exact L).
  split.
  { unfold charAt. rewrite (proj2 (nth_error_None cpf 10)) by lia.
    reflexivity. }
  split; [apply parseInt_charAt_out; lia|].
  split; [exact strict_neq_NaN|].
  destruct (Nat.le_gt_cases (length cpf) 9) as [S|S].
  - rewrite (parseInt_charAt_out cpf 9 S), strict_neq_NaN. reflexivity.
  - destruct (_ !== _)%js; [reflexivity|].
    rewrite (parseInt_charAt_out cpf 10) by lia.
    rewrite strict_neq_NaN. reflexivity.
Qed.

Lemma isValidCpf_short_witness :
  length (filter is_digit (str "111.444.777-3")) < 11
  /\ isValidCpf (str "111.444.777-3") = false.
Proof.
  split; [vm_compute; lia|].
  apply (isValidCpf_short (str "111.444.777-3")). vm_compute; lia.
Defined.

(** C10. No input is both a landline and a cell phone: once the
    non-digits are stripped the first pattern takes ten digits only and the
    second eleven only. *)
Theorem landline_cellphone_exclusive (input : jsstring) :
  (isLandline input && isCellPhone input)%bool = false
  /\ (if isLandline input
      then Nat.eqb (length (filter is_digit input)) 10 else true) = true
  /\ (if isCellPhone input
      then Nat.eqb (length (filter is_digit input)) 11 else true) = true.
Proof.
  rewrite isLandline_eq, isCellPhone_eq. cbv zeta.
  set (d := filter is_digit input).
  set (g := (isNumber d && negb (all_identical d))%bool).
  destruct (landline_digits d) eqn:A; destruct (cellphone_digits d) eqn:B.
  - apply landline_digits_length in A. apply cellphone_digits_length in B.
    rewrite A in B. discriminate B.
  - apply landline_digits_length in A. rewrite A.
    destruct g; repeat split; reflexivity.
  - apply cellphone_digits_length in B. rewrite B.
    destruct g; repeat split; reflexivity.
  - destruct g; repeat split; reflexivity.
Qed.

(** * Further properties *)

(** X1. [isCellPhone] strips every non-digit, then answers false when what
    is left fails [isNumber], false when all the digits left are the same
    one, and otherwise true exactly when they are eleven digits: two in
    1-9, one in 6-9 and eight digits. *)
Theorem isCellPhone_spec :
  (forall input : jsstring,
      let d := filter is_digit input in
      isCellPhone input
      = (isNumber d && negb (all_identical d) && cellphone_digits d)%bool)
  /\ isCellPhone (str "11988887777") = true
  /\ isCellPhone (str "11188887777") = false
  /\ isCellPhone (str "99999999999") = false.
Proof.
  split; [exact isCellPhone_eq|]. repeat split; reflexivity.
Qed.

(** X2. The two telephone validators look at the digits of their input
    only: whatever stands between the digits (spaces, brackets, dashes,
    letters) changes nothing. *)
Theorem phones_ignore_formatting (input : jsstring) :
  isLandline input = isLandline (filter is_digit input)
  /\ isCellPhone input = isCellPhone (filter is_digit input).
Proof.
  rewrite (isLandline_eq input), (isLandline_eq (filter is_digit input)).
  rewrite (isCellPhone_eq input), (isCellPhone_eq (filter is_digit input)).
  cbv zeta. rewrite (filter_digits_id _ (filter_all_digits input)).
  split; reflexivity.
Qed.

(** X3. [isValidCpf] reads the first eleven digits of its input and
    nothing else: the non-digits and every digit after the eleventh are
    ignored. *)
Theorem isValidCpf_first_eleven (input : jsstring) :
  isValidCpf input = isValidCpf (firstn 11 (filter is_digit input)).
Proof.
  unfold isValidCpf. rewrite !strip_digits.
  rewrite (filter_digits_id (firstn 11 (filter is_digit input)))
    by apply forallb_firstn, filter_all_digits.
  rewrite !weighted_sum_firstn, !charAt_firstn by lia. reflexivity.
Qed.

(** X4. Every string of nine digits has a valid completion: followed by
    the first check value and by the second check value computed over the
    ten digits so far, it is accepted by [isValidCpf]. *)
Theorem cpf_complete_valid (base : jsstring) :
  length base = 9 -> forallb is_digit base = true ->
  isValidCpf (cpf_complete base) = true.
Proof.
  intros L A. unfold cpf_complete.
  set (z1 := first_check (map digit_of base)).
  set (c1 := chr_of_digit z1).
  set (z2 := second_check (map digit_of (base ++ [c1]))).
  set (c2 := chr_of_digit z2).
  destruct (chr_of_digit_ok z1 (check_range _)) as [D1 V1].
  destruct (chr_of_digit_ok z2 (check_range _)) as [D2 V2].
  fold c1 in D1, V1. fold c2 in D2, V2.
  assert (forallb is_digit (base ++ [c1; c2]) = true) as All.
  { rewrite forallb_app, A. cbn [forallb]. rewrite D1, D2. reflexivity. }
  assert (11 <= length (filter is_digit (base ++ [c1; c2]))) as L11.
  { rewrite (filter_digits_id _ All), length_app, L. simpl. lia. }
  rewrite (isValidCpf_eq _ L11).
  rewrite (digits_all _ All), map_app. cbn [map]. rewrite V1, V2.
  set (mb := map digit_of base).
  assert (length mb = 9) as Lm by (unfold mb; rewrite length_map; exact L).
  assert (digit (mb ++ [z1; z2]) 9 = z1) as N9.
  { unfold digit. rewrite app_nth2, Lm by lia. reflexivity. }
  assert (digit (mb ++ [z1; z2]) 10 = z2) as N10.
  { unfold digit. rewrite app_nth2, Lm by lia. reflexivity. }
  rewrite N9, N10.
  assert (first_check (mb ++ [z1; z2]) = z1) as F.
  { unfold z1, first_check. f_equal. apply weighted_agree.
    intros i Li. unfold digit. apply app_nth1.
    change (i < length mb). lia. }
  assert (second_check (mb ++ [z1; z2]) = z2) as S.
  { unfold z2, second_check. f_equal. rewrite map_app. cbn [map].
    rewrite V1. fold mb. apply weighted_agree.
    intros i Li. unfold digit.
    destruct (Nat.lt_ge_cases i (length mb)) as [Lt|Ge].
    - rewrite !app_nth1 by exact Lt. reflexivity.
    - rewrite !app_nth2 by exact Ge.
      replace (i - length mb) with 0 by lia. reflexivity. }
  rewrite F, S, !Z.eqb_refl. reflexivity.
Qed.

Lemma cpf_complete_valid_witness :
  length (str "111444777") = 9
  /\ forallb is_digit (str "111444777") = true
  /\ cpf_complete (str "111444777") = str "11144477735"
  /\ isValidCpf (cpf_complete (str "111444777")) = true.
Proof.
  split; [reflexivity|]. split; [reflexivity|]. split; [reflexivity|].
  apply (cpf_complete_valid (str "111444777")); reflexivity.
Defined.

(** X5. The first nine digits of a valid CPF determine its two check
    digits: two accepted inputs that agree on their first nine digits agree
    on their first eleven. *)
Theorem isValidCpf_check_digits_unique (a b : jsstring) :
  firstn 9 (filter is_digit a) = firstn 9 (filter is_digit b) ->
  isValidCpf a = true -> isValidCpf b = true ->
  firstn 11 (filter is_digit a) = firstn 11 (filter is_digit b).
Proof.
  intros H Va Vb.
  pose proof (cpf_valid_length a Va) as La.
  pose proof (cpf_valid_length b Vb) as Lb.
  destruct (cpf_valid_checks a Va) as [A1 A2].
  destruct (cpf_valid_checks b Vb) as [B1 B2].
  assert (firstn 10 (filter is_digit a) = firstn 10 (filter is_digit b)) as H10.
  { apply prefix_extend; try lia; [exact H|].
    rewrite <- A1, <- B1. unfold first_check. f_equal.
    apply weighted_agree, prefix_digits_agree, H. }
  apply prefix_extend; try lia; [exact H10|].
  rewrite <- A2, <- B2. unfold second_check. f_equal.
  apply weighted_agree, prefix_digits_agree, H10.
Qed.

Lemma isValidCpf_check_digits_unique_witness :
  firstn 9 (filter is_digit (str "111.444.777-35"))
  = firstn 9 (filter is_digit (str "11144477735 ext. 9"))
  /\ isValidCpf (str "111.444.777-35") = true
  /\ isValidCpf (str "11144477735 ext. 9") = true
  /\ firstn 11 (filter is_digit (str "111.444.777-35"))
     = firstn 11 (filter is_digit (str "11144477735 ext. 9")).
Proof.
  split; [reflexivity|]. split; [reflexivity|]. split; [reflexivity|].
  apply (isValidCpf_check_digits_unique (str "111.444.777-35")
           (str "11144477735 ext. 9")); reflexivity.
Defined.

(** X6. [email] accepts its input exactly when what the trimming leaves
    (the input without its leading run of white space if it has one,
    without its trailing run otherwise) is a non-empty local part of
    letters, digits, [-], [.], [+] and [_], an [@], a non-empty domain of
    the same code units, a period and two to four letters. *)
Theorem email_structure (input : jsstring) :
  email input = true <->
  exists local domain tld,
    trim_once input = local ++ chr "@" :: domain ++ chr "." :: tld
    /\ local <> [] /\ forallb email_class local = true
    /\ domain <> [] /\ forallb email_class domain = true
    /\ 2 <= length tld <= 4 /\ forallb is_alpha tld = true.
Proof. rewrite email_eq. apply re_email_shape. Qed.

(** X7. White space on one side of an address is ignored: for [s] with
    no white space at either end, [email] gives the same answer on [s],
    on [s] after white space and on [s] before white space. *)
Theorem email_one_sided_trim (ws s : jsstring) :
  forallb is_space ws = true -> clean s = true ->
  email (ws ++ s) = email s /\ email (s ++ ws) = email s.
Proof.
  intros A C. rewrite !email_eq.
  rewrite trim_once_leading, trim_once_trailing, trim_once_clean by assumption.
  split; reflexivity.
Qed.

Lemma email_one_sided_trim_witness :
  forallb is_space (str "  ") = true /\ clean (str "a@b.co") = true
  /\ email (str "  a@b.co") = email (str "a@b.co")
  /\ email (str "a@b.co  ") = email (str "a@b.co").
Proof.
  split; [reflexivity|]. split; [reflexivity|].
  apply (email_one_sided_trim (str "  ") (str "a@b.co")); reflexivity.
Defined.

(** X8. What [email] accepts holds, once trimmed, exactly one [@] and no
    white space. *)
Theorem email_single_at (input : jsstring) :
  email input = true ->
  count_occ N.eq_dec (trim_once input) (chr "@") = 1
  /\ forallb (fun c => negb (is_space c)) (trim_once input) = true.
Proof.
  rewrite email_eq, re_email_shape. intros Sh.
  split; [|apply shape_no_space, Sh].
  destruct Sh as (local & domain & tld & -> & _ & F1 & _ & F2 & _ & F5).
  unfold char in *.
  rewrite count_occ_app, (class_not_at local F1). cbn [count_occ].
  destruct (N.eq_dec (chr "@") (chr "@")) as [_|N]; [|contradiction N; reflexivity].
  rewrite count_occ_app, (class_not_at domain F2). cbn [count_occ].
  destruct (N.eq_dec (chr ".") (chr "@")) as [E|_]; [discriminate E|].
  rewrite (alpha_not_at tld F5). reflexivity.
Qed.

Lemma email_single_at_witness :
  email (str " john.doe@example.com") = true
  /\ count_occ N.eq_dec (trim_once (str " john.doe@example.com")) (chr "@") = 1.
Proof.
  split; [reflexivity|].
  apply (email_single_at (str " john.doe@example.com")). reflexivity.
Defined.

(** X9. Every format other than ['pt'] takes the default branch of
    [date]: the input followed by the time of day is parsed, the answer is
    false when the time parsed is strictly after the current one and true
    otherwise, also when the input does not parse. *)
Theorem date_default_branch (h : Host) (input format : jsstring) :
  format <> str "pt" ->
  date h input format =
  match parse h (input ++ str " " ++ localeTime h) with
  | Fin t => negb (now h <? t)%Z
  | NaN => true
  end.
Proof.
  intros N. rewrite (date_switch_default h input format N). cbv zeta.
  destruct (parse h _) as [|t]; cbn [num_gt]; [reflexivity|].
  destruct (now h <? t)%Z; reflexivity.
Qed.

Lemma date_default_branch_witness :
  str "en" <> str "pt"
  /\ date SampleHost.host (str "not a date") (str "en") = true.
Proof.
  split; [discriminate|].
  rewrite (date_default_branch SampleHost.host (str "not a date") (str "en"));
    [reflexivity|discriminate].
Defined.

(** X10. On an input of three parts that [formatPtBrDateToEn] converts,
    [date] with the format ['pt'] answers as [date] with the default format
    does on the converted string. *)
Theorem date_pt_via_transform (h : Host) (s t : jsstring) :
  formatPtBrDateToEn h s = Str t ->
  length (split (chr "/") s) = 3 ->
  date h s (str "pt") = date h t (str "db").
Proof.
  intros F L. rewrite date_switch_pt, date_switch_default by discriminate.
  cbv zeta. rewrite L. cbn [Nat.eqb negb].
  unfold formatPtBrDateToEn in F.
  destruct (isDate h s); [|discriminate F].
  cbn [negb] in F. injection F as <-. reflexivity.
Qed.

Lemma date_pt_via_transform_witness :
  formatPtBrDateToEn SampleHost.host (str "05/12/2024") = Str (str "2024-12-05")
  /\ length (split (chr "/") (str "05/12/2024")) = 3
  /\ date SampleHost.host (str "05/12/2024") (str "pt")
     = date SampleHost.host (str "2024-12-05") (str "db").
Proof.
  split; [reflexivity|]. split; [reflexivity|].
  apply (date_pt_via_transform SampleHost.host (str "05/12/2024")
           (str "2024-12-05")); reflexivity.
Defined.

(** X11. [formatPtBrDateToEn] does not count the parts: on a string that
    [isDate] accepts and that holds no slash, month and year are missing
    and the result is [undefined-undefined-] followed by the input. *)
Theorem formatPtBrDateToEn_without_slash (h : Host) (s : jsstring) :
  isDate h s = true -> free (chr "/") s = true ->
  formatPtBrDateToEn h s = Str (str "undefined-undefined-" ++ s).
Proof.
  intros D F. unfold formatPtBrDateToEn.
  rewrite D, (split_free (chr "/") s F). reflexivity.
Qed.

Lemma formatPtBrDateToEn_without_slash_witness :
  isDate SampleHost.host (str "2024-12-05") = true
  /\ free (chr "/") (str "2024-12-05") = true
  /\ formatPtBrDateToEn SampleHost.host (str "2024-12-05")
     = Str (str "undefined-undefined-2024-12-05").
Proof.
  split; [reflexivity|]. split; [reflexivity|].
  apply (formatPtBrDateToEn_without_slash SampleHost.host (str "2024-12-05"));
    reflexivity.
Defined.

(** X12. The round trip in the other direction: for a string [t] of the
    shape YYYY-MM-DD that [formatEnDateToPtBr] turns into a string which
    [isDate] accepts in its turn, [formatPtBrDateToEn] gives [t] back. *)
Theorem format_round_trip_back (h : Host) (t s : jsstring) :
  is_yyyymmdd t = true ->
  formatEnDateToPtBr h t = Str s ->
  isDate h s = true ->
  formatPtBrDateToEn h s = Str t.
Proof.
  intros Sh F D.
  destruct (is_yyyymmdd_fields t Sh) as (dd & mm & yyyy & -> & Ad & Am & Ay).
  assert (isDate h (yyyy ++ chr "-" :: mm ++ chr "-" :: dd) = true) as Dt.
  { unfold formatEnDateToPtBr in F.
    destruct (isDate h _); [reflexivity|discriminate F]. }
  rewrite formatEnDateToPtBr_fields in F
    by (assumption || (apply digits_free; [exact digit_free_dash|assumption])).
  injection F as <-.
  apply formatPtBrDateToEn_fields;
    assumption || (apply digits_free; [exact digit_free_slash|assumption]).
Qed.

Lemma format_round_trip_back_witness :
  is_yyyymmdd (str "2024-12-05") = true
  /\ formatEnDateToPtBr SampleHost.host (str "2024-12-05")
     = Str (str "05/12/2024")
  /\ isDate SampleHost.host (str "05/12/2024") = true
  /\ formatPtBrDateToEn SampleHost.host (str "05/12/2024")
     = Str (str "2024-12-05").
Proof.
  split; [reflexivity|]. split; [reflexivity|]. split; [reflexivity|].
  apply (format_round_trip_back SampleHost.host (str "2024-12-05")
           (str "05/12/2024")); reflexivity.
Defined.

(** X13. [notInitializeds] answers true exactly when one of the values is
    the empty string, [null] or [undefined]; numbers, booleans, objects
    and non-empty strings, blank ones included, count as initialised. *)
Theorem notInitializeds_spec (inputs : list value) :
  notInitializeds inputs = true <->
  In (VString []) inputs \/ In VNull inputs \/ In VUndefined inputs.
Proof.
  unfold notInitializeds. rewrite existsb_exists. split.
  - intros (v & I & U). apply uninitialized_iff in U.
    destruct U as [-> | [-> | ->]]; auto.
  - intros [I|[I|I]]; eexists; (split; [exact I|reflexivity]).
Qed.

(** X14. The answer of [notInitializeds] does not depend on the order of
    the values, and on a concatenation it is the disjunction of the
    answers on the two parts. *)
Theorem notInitializeds_order (a b : list value) :
  Permutation a b ->
  notInitializeds a = notInitializeds b
  /\ forall c, notInitializeds (a ++ c)
               = (notInitializeds b || notInitializeds c)%bool.
Proof.
  intros P.
  assert (notInitializeds a = notInitializeds b) as E.
  { unfold notInitializeds.
    induction P as [|v a b P IH|v w a|a b c P1 IH1 P2 IH2]; cbn [existsb].
    - reflexivity.
    - rewrite IH. reflexivity.
    - destruct (is_empty_string v || isNull v || isUndefined v)%bool,
        (is_empty_string w || isNull w || isUndefined w)%bool; reflexivity.
    - rewrite IH1. exact IH2. }
  split; [exact E|]. intros c. rewrite <- E.
  unfold notInitializeds. apply existsb_app.
Qed.

Lemma notInitializeds_order_witness :
  Permutation [VString (str "a"); VNull] [VNull; VString (str "a")]
  /\ notInitializeds [VString (str "a"); VNull]
     = notInitializeds [VNull; VString (str "a")].
Proof.
  split; [apply perm_swap|].
  apply (notInitializeds_order [VString (str "a"); VNull]
           [VNull; VString (str "a")]). apply perm_swap.
Defined.

(** X15. White space on both sides of an address is never forgiven:
    whatever stands between a leading and a trailing run of white space,
    [email] refuses the input. *)
Theorem email_both_sides_refused (ws1 s ws2 : jsstring) :
  ws1 <> [] -> forallb is_space ws1 = true ->
  ws2 <> [] -> forallb is_space ws2 = true ->
  email (ws1 ++ s ++ ws2) = false.
Proof.
  intros N1 A1 N2 A2. rewrite email_eq.
  destruct (test re_email (trim_once (ws1 ++ s ++ ws2))) eqn:T; [|reflexivity].
  exfalso. apply re_email_shape in T.
  pose proof (shape_no_space _ T) as NS.
  apply (shape_nonempty _ T).
  destruct ws1 as [|w ws1']; [contradiction N1; reflexivity|].
  cbn [forallb] in A1. apply andb_true_iff in A1. destruct A1 as [Sw A1].
  cbn [app trim_once] in *. rewrite Sw in *.
  change (w :: ws1' ++ s ++ ws2) with ((w :: ws1') ++ s ++ ws2) in *.
  rewrite app_assoc in *.
  apply (dropwhile_before_spaces _ ws2 N2 A2 NS).
Qed.

Lemma email_both_sides_refused_witness :
  str " " <> [] /\ forallb is_space (str " ") = true
  /\ email (str " " ++ str "a@b.co" ++ str " ") = false.
Proof.
  split; [discriminate|]. split; [reflexivity|].
  apply (email_both_sides_refused (str " ") (str "a@b.co") (str " "));
    (discriminate || reflexivity).
Defined.

(** X16. [text] accepts its input exactly when [Number] does not read it
    as an integer and, all white space removed, it has at least three code
    units of which the first two are word characters or accented Latin-1
    letters. *)
Theorem text_spec (nh : Numeric) (input : jsstring) :
  text nh input =
  let t := filter non_space input in
  (negb (isInteger nh (toNumber nh input))
   && Nat.leb 3 (length t) && forallb text_letter (firstn 2 t))%bool.
Proof.
  unfold text, re_spaces. rewrite remove_runs.
  change (fun c : char => negb (is_space c)) with non_space.
  rewrite filter_trim, re_text_eq by apply filter_non_space_all.
  cbv zeta. rewrite andb_assoc. reflexivity.
Qed.
